(** * CUDA driver API vector addition: the two host programs

    A shallow embedding of [driver_api.cpp] and [unified_memory.cpp].
    Both are straight-line host programs that talk to the CUDA driver,
    write to stdout and stderr, fill two integer arrays, launch the
    kernel [Sum] of [kernel.ptx] once and compare its output with the
    sums computed on the host.

    The driver is an environment: a record [driver] answers every call
    with a return code and, where the call has an out-parameter, with
    the value it stores there.  A program is a computation in a small
    state-and-exit monad; the state holds the three arrays and the
    chronological trace of everything observable. *)

From Stdlib Require Import ZArith List String Ascii Bool Lia DecimalString.
From Stdlib Require Import Setoid.
Import ListNotations.
Open Scope Z_scope.

Set Implicit Arguments.

(* ================================================================= *)
(** ** C [int] arithmetic *)

Module Int.

Definition INT_MAX : Z := 2147483647.
Definition INT_MIN : Z := -2147483648.
Definition modulus : Z := 4294967296.

Definition in_range (x : Z) : Prop := INT_MIN <= x <= INT_MAX.

(** Two's-complement reduction of a mathematical result to [int].
    Signed overflow is undefined in C; the model takes the value the
    usual targets produce. *)
Definition wrap (x : Z) : Z := (x - INT_MIN) mod modulus + INT_MIN.

Definition add (x y : Z) : Z := wrap (x + y).
Definition sub (x y : Z) : Z := wrap (x - y).
Definition mul (x y : Z) : Z := wrap (x * y).

(** [x / y] truncates toward zero; a zero divisor and
    [INT_MIN / -1] trap. *)
Definition div (x y : Z) : option Z :=
  if y =? 0 then None
  else if (x =? INT_MIN) && (y =? -1) then None
  else Some (Z.quot x y).

(** Conversion of an [int] argument to an [unsigned int] parameter. *)
Definition to_unsigned (x : Z) : Z := x mod modulus.

Definition sizeof_int : Z := 4.

End Int.

(* ================================================================= *)
(** ** The driver interface *)

Definition CUresult := Z.
Definition CUDA_SUCCESS : CUresult := 0.

(** The three arrays of either program. *)
Inductive buffer : Type := buf_a | buf_b | buf_c.

Inductive attribute : Type :=
| CU_DEVICE_ATTRIBUTE_COMPUTE_CAPABILITY_MAJOR
| CU_DEVICE_ATTRIBUTE_COMPUTE_CAPABILITY_MINOR
| CU_DEVICE_ATTRIBUTE_UNIFIED_ADDRESSING
| CU_DEVICE_ATTRIBUTE_MAX_BLOCK_DIM_X.

(** Launch configuration as [cuLaunchKernel] receives it, after the
    conversion of the six dimensions to [unsigned int]. *)
Record launch : Type := {
  gridDimX : Z; gridDimY : Z; gridDimZ : Z;
  blockDimX : Z; blockDimY : Z; blockDimZ : Z;
  sharedMemBytes : Z;
  hStream : Z;
  arg_n : Z  (* fourth kernel parameter, after d_a, d_b, d_c *)
}.

(** Every driver entry point the programs use, with the arguments the
    programs choose. *)
Inductive call : Type :=
| cuInit (flags : Z)
| cuDeviceGetCount
| cuDeviceGet (ordinal : Z)
| cuDeviceGetName (len : Z)
| cuDeviceGetAttribute (attrib : attribute)
| cuDeviceTotalMem
| cuCtxCreate (flags : Z)
| cuModuleLoad (fname : string)
| cuModuleGetFunction (name : string)
| cuCtxDestroy
| cuMemAlloc (dptr : buffer) (bytesize : Z)
| cuMemFree (dptr : buffer)
| cuMemAllocHost (pp : buffer) (bytesize : Z)
| cuMemFreeHost (p : buffer)
| cuMemcpyHtoD (dst : buffer) (src : buffer) (bytes : Z)
| cuMemcpyDtoH (dst : buffer) (src : buffer) (bytes : Z)
| cuLaunchKernel (cfg : launch)
| cuStreamSynchronize (stream : Z).

(** What the driver and the device answer.  [kernelOutput i] is the
    content of cell [i] of the output buffer once the kernel has run.
    [deviceName] is what a successful [cuDeviceGetName] writes into
    the array [name] of [initCUDA]; [uninitialised_name] is what that
    array holds when the call has written nothing.  The array has no
    initialiser, so this content is indeterminate: nothing is known
    about it, and the programs print it all the same. *)
Record driver : Type := {
  result : call -> CUresult;
  deviceCount : Z;
  deviceName : string;
  attrValue : attribute -> Z;
  totalMem : Z;
  kernelOutput : Z -> Z;
  uninitialised_name : string
}.

(* ================================================================= *)
(** ** Output *)

(** One constructor per format string of the sources. *)
Inductive message : Type :=
| MsgCudaError (err : CUresult) (file : string) (line : Z)
| MsgNoDevices
| MsgUsingDevice (name : string)
| MsgComputeCapability (major minor : Z)
| MsgTotalMem (bytes : Z)
| Msg64bit (yes : bool)
| MsgUvmSupported
| MsgUvmNotSupported
| MsgCtxError
| MsgModuleLoadError (fname : string)
| MsgGetFunctionError (name : string)
| MsgInitializing
| MsgRunning
| MsgKernelComplete
| MsgMismatch (i expected got : Z)
| MsgAllChecksComplete
| MsgResultIncorrect
| MsgFinalizing.

Module Printf.

Open Scope string_scope.

Definition nl : string := String (ascii_of_nat 10) EmptyString.

(** [%d], [%i], [%llu] *)
Definition d (z : Z) : string := NilZero.string_of_int (Z.to_int z).

Fixpoint zeros (k : nat) : string :=
  match k with O => "" | S k' => "0" ++ zeros k' end.

Definition pad (width : nat) (s : string) : string :=
  zeros (width - String.length s) ++ s.

(** [%04d]: the sign counts toward the width of four. *)
Definition d04 (z : Z) : string :=
  if (z <? 0)%Z then "-" ++ pad 3 (d (- z)) else pad 4 (d z).

Definition render (m : message) : string :=
  match m with
  | MsgCudaError err file line =>
      "CUDA Driver API error = " ++ d04 err ++ " from file <" ++ file
        ++ ">, line " ++ d line ++ "." ++ nl
  | MsgNoDevices => "Error: no devices supporting CUDA" ++ nl
  | MsgUsingDevice name => "> Using device 0: " ++ name ++ nl
  | MsgComputeCapability major minor =>
      "> GPU Device has SM " ++ d major ++ "." ++ d minor
        ++ " compute capability" ++ nl
  | MsgTotalMem bytes =>
      "  Total amount of global memory:   " ++ d bytes ++ " bytes" ++ nl
  | Msg64bit yes =>
      "  64-bit Memory Address:           "
        ++ (if yes then "YES" else "NO") ++ nl
  | MsgUvmSupported =>
      "  Unified Virtual Addressing is supported on this device" ++ nl
  | MsgUvmNotSupported =>
      "Unified Virtual Addressing is not supported on this device" ++ nl
  | MsgCtxError => "* Error initializing the CUDA context." ++ nl
  | MsgModuleLoadError fname => "* Error loading the module " ++ fname ++ nl
  | MsgGetFunctionError name =>
      "* Error getting kernel function " ++ name ++ nl
  | MsgInitializing => "- Initializing..." ++ nl
  | MsgRunning => "# Running the kernel..." ++ nl
  | MsgKernelComplete => "# Kernel complete." ++ nl
  | MsgMismatch i expected got =>
      "* Error at array position " ++ d i ++ ": Expected " ++ d expected
        ++ ", Got " ++ d got ++ nl
  | MsgAllChecksComplete => "*** All checks complete." ++ nl
  | MsgResultIncorrect => "*** Result incorrect." ++ nl
  | MsgFinalizing => "- Finalizing..." ++ nl
  end.

End Printf.

(* ================================================================= *)
(** ** Observable events and machine state *)

Inductive event : Type :=
| EvCall (c : call) (r : CUresult)      (* a driver call and its code *)
| EvStdout (m : message)
| EvStderr (m : message)
| EvStore (b : buffer) (i v : Z)        (* host write  b[i] = v *)
| EvLoad (b : buffer) (i v : Z).        (* host read of b[i], giving v *)

Definition trace := list event.

(** A cell is [None] until something has written it. *)
Definition array := list (option Z).

Record state : Type := {
  mem_a : array;
  mem_b : array;
  mem_c : array;
  log : trace
}.

Definition initial : state :=
  {| mem_a := []; mem_b := []; mem_c := []; log := [] |}.

Definition mem (s : state) (b : buffer) : array :=
  match b with
  | buf_a => mem_a s
  | buf_b => mem_b s
  | buf_c => mem_c s
  end.

Definition set_mem (b : buffer) (v : array) (s : state) : state :=
  match b with
  | buf_a => {| mem_a := v; mem_b := mem_b s; mem_c := mem_c s; log := log s |}
  | buf_b => {| mem_a := mem_a s; mem_b := v; mem_c := mem_c s; log := log s |}
  | buf_c => {| mem_a := mem_a s; mem_b := mem_b s; mem_c := v; log := log s |}
  end.

Definition emit (e : event) (s : state) : state :=
  {| mem_a := mem_a s; mem_b := mem_b s; mem_c := mem_c s;
     log := log s ++ [e] |}.

Fixpoint update (l : array) (i : nat) (v : Z) : option array :=
  match l, i with
  | [], _ => None
  | _ :: t, O => Some (Some v :: t)
  | h :: t, S i' =>
      match update t i' v with
      | Some t' => Some (h :: t')
      | None => None
      end
  end.

(* ================================================================= *)
(** ** The monad of host programs *)

(** A step returns a value, ends the process through [exit], or faults
    (out-of-bounds or uninitialised access, division trap). *)
Inductive outcome (A : Type) : Type :=
| Ret (a : A)
| Exit (status : Z)
| Fault.

Arguments Exit {A} status.
Arguments Fault {A}.

Definition M (A : Type) : Type := state -> outcome A * state.

Definition ret {A} (a : A) : M A := fun s => (Ret a, s).

Definition bind {A B} (m : M A) (f : A -> M B) : M B :=
  fun s =>
    match m s with
    | (Ret a, s') => f a s'
    | (Exit c, s') => (Exit c, s')
    | (Fault, s') => (Fault, s')
    end.

Declare Scope prog_scope.
Delimit Scope prog_scope with prog.
Notation "x <- m ;; k" := (bind m (fun x => k))
  (at level 61, m at next level, right associativity) : prog_scope.
Notation "m ;; k" := (bind m (fun _ => k))
  (at level 61, right associativity) : prog_scope.
Open Scope prog_scope.

Definition fault {A} : M A := fun s => (Fault, s).

(** [exit(status)]: the parent sees the low eight bits. *)
Definition exit {A} (status : Z) : M A :=
  fun s => (Exit (Z.land status 255), s).

Definition printf (m : message) : M unit :=
  fun s => (Ret tt, emit (EvStdout m) s).

Definition fprintf_stderr (m : message) : M unit :=
  fun s => (Ret tt, emit (EvStderr m) s).

(** [b[i] = v] on the host. *)
Definition store (b : buffer) (i v : Z) : M unit :=
  fun s =>
    if i <? 0 then (Fault, s)
    else match update (mem s b) (Z.to_nat i) v with
         | Some l => (Ret tt, emit (EvStore b i v) (set_mem b l s))
         | None => (Fault, s)
         end.

(** The host reads [b[i]]. *)
Definition load (b : buffer) (i : Z) : M Z :=
  fun s =>
    if i <? 0 then (Fault, s)
    else match nth_error (mem s b) (Z.to_nat i) with
         | Some (Some v) => (Ret v, emit (EvLoad b i v) s)
         | _ => (Fault, s)
         end.

(** Storage for [n] ints with indeterminate content. *)
Definition fresh (n : Z) : array := repeat None (Z.to_nat n).

Definition declare (b : buffer) (n : Z) : M unit :=
  fun s => (Ret tt, set_mem b (fresh n) s).

(** [for (int i = 0; i < n; ++i) body] *)
Fixpoint for_from (i : Z) (count : nat) (body : Z -> M unit) : M unit :=
  match count with
  | O => ret tt
  | S k => body i ;; for_from (i + 1) k body
  end.

Definition for_upto (n : Z) (body : Z -> M unit) : M unit :=
  for_from 0 (Z.to_nat n) body.

(** How a run of [main] ends, as the parent process sees it. *)
Inductive termination : Type :=
| Exited (status : Z)
| Crashed.

Definition run (main : M Z) : termination * trace :=
  match main initial with
  | (Ret v, s) => (Exited (Z.land v 255), log s)
  | (Exit c, s) => (Exited c, log s)
  | (Fault, s) => (Crashed, log s)
  end.

Definition status_of (r : termination * trace) : termination := fst r.
Definition trace_of (r : termination * trace) : trace := snd r.

(* ================================================================= *)
(** ** Code shared by the two source files *)

Section Host.

Variable drv : driver.

(** The value of [__FILE__] in the translation unit. *)
Variable FILE : string.

(** A driver call: the code comes from the environment and the call
    is recorded. *)
Definition invoke (c : call) : M CUresult :=
  fun s => let r := result drv c in (Ret r, emit (EvCall c r) s).

Definition __checkCudaErrors (err : CUresult) (file : string) (line : Z)
  : M unit :=
  if negb (CUDA_SUCCESS =? err) then
    fprintf_stderr (MsgCudaError err file line) ;;
    exit (-1)
  else ret tt.

(** [checkCudaErrors(c)] written on source line [line]. *)
Definition checkCudaErrors (line : Z) (c : call) : M unit :=
  err <- invoke c ;;
  __checkCudaErrors err FILE line.

(** Modelled from the spec: the kernel [Sum] of [kernel.ptx] is not
    among the sources; the specification gives it as
    [c[i] = a[i] + b[i]], so the device writes the output buffer and
    nothing else.  What it writes there is not assumed: it is the
    [kernelOutput] of the driver.  [deliver b cells] puts it into the
    first [cells] cells of [b], for a device-to-host copy or for the
    kernel writing host-pinned memory. *)
Definition deliver (b : buffer) (cells : Z) : M unit :=
  fun s =>
    let k := Z.to_nat cells in
    if (k <=? List.length (mem s b))%nat then
      (Ret tt,
       set_mem b
         (map (fun i => Some (kernelOutput drv (Z.of_nat i))) (seq 0 k)
            ++ skipn k (mem s b)) s)
    else (Fault, s).

(** Grid width of the launch, [(n+block_size-1)/block_size] in [int]. *)
Definition grid_dim_x (n block_size : Z) : option Z :=
  Int.div (Int.sub (Int.add n block_size) 1) block_size.

Definition launch_config (grid block_size n : Z) : launch :=
  {| gridDimX := Int.to_unsigned grid; gridDimY := 1; gridDimZ := 1;
     blockDimX := Int.to_unsigned block_size; blockDimY := 1;
     blockDimZ := 1;
     sharedMemBytes := 0; hStream := 0; arg_n := n |}.

(** The comparison and report of one position, the body of the
    verification loops. *)
Definition mismatch (i : Z) : M bool :=
  ci <- load buf_c i ;;
  ai <- load buf_a i ;;
  bi <- load buf_b i ;;
  ret (negb (ci =? Int.add ai bi)).

Definition report (i : Z) : M unit :=
  ai <- load buf_a i ;;
  bi <- load buf_b i ;;
  ci <- load buf_c i ;;
  printf (MsgMismatch i (Int.add ai bi) ci).

End Host.

Definition module_file : string := "kernel.ptx".
Definition kernel_name : string := "Sum".

(** [#define N 10;] *)
Definition N : Z := 10.

(* ================================================================= *)
(** ** driver_api.cpp *)

Module DriverApi.
Section Program.

Variable drv : driver.

Definition FILE : string := "driver_api.cpp".

Local Abbreviation check := (checkCudaErrors drv FILE).
Local Abbreviation invoke := (invoke drv).

(** The label [exit:] of [initCUDA]. *)
Definition initCUDA_exit : M unit :=
  invoke cuCtxDestroy ;;
  exit (-1).

Definition initCUDA : M unit :=
  let deviceCount0 := 0 in
  err <- invoke (cuInit 0) ;;
  deviceCount1 <-
    (if err =? CUDA_SUCCESS then
       check 46 cuDeviceGetCount ;;
       ret (deviceCount drv)
     else ret deviceCount0) ;;
  (if deviceCount1 =? 0 then
     fprintf_stderr MsgNoDevices ;;
     exit (-1)
   else ret tt) ;;
  check 54 (cuDeviceGet 0) ;;
  err_name <- invoke (cuDeviceGetName 100) ;;
  printf (MsgUsingDevice (if err_name =? CUDA_SUCCESS then deviceName drv
                          else uninitialised_name drv)) ;;
  check 61 (cuDeviceGetAttribute
              CU_DEVICE_ATTRIBUTE_COMPUTE_CAPABILITY_MAJOR) ;;
  check 62 (cuDeviceGetAttribute
              CU_DEVICE_ATTRIBUTE_COMPUTE_CAPABILITY_MINOR) ;;
  printf (MsgComputeCapability
            (attrValue drv CU_DEVICE_ATTRIBUTE_COMPUTE_CAPABILITY_MAJOR)
            (attrValue drv CU_DEVICE_ATTRIBUTE_COMPUTE_CAPABILITY_MINOR)) ;;
  check 65 cuDeviceTotalMem ;;
  printf (MsgTotalMem (totalMem drv)) ;;
  printf (Msg64bit (totalMem drv >? 4 * 1024 * 1024 * 1024)) ;;
  err <- invoke (cuCtxCreate 0) ;;
  if negb (err =? CUDA_SUCCESS) then
    fprintf_stderr MsgCtxError ;;
    initCUDA_exit
  else
  err <- invoke (cuModuleLoad module_file) ;;
  if negb (err =? CUDA_SUCCESS) then
    fprintf_stderr (MsgModuleLoadError module_file) ;;
    initCUDA_exit
  else
  err <- invoke (cuModuleGetFunction kernel_name) ;;
  if negb (err =? CUDA_SUCCESS) then
    fprintf_stderr (MsgGetFunctionError kernel_name) ;;
    initCUDA_exit
  else ret tt.

Definition finalizeCUDA : M unit :=
  invoke cuCtxDestroy ;;
  ret tt.

Definition setupDeviceMemory (n : Z) : M unit :=
  check 103 (cuMemAlloc buf_a (Int.sizeof_int * n)) ;;
  check 104 (cuMemAlloc buf_b (Int.sizeof_int * n)) ;;
  check 105 (cuMemAlloc buf_c (Int.sizeof_int * n)).

Definition releaseDeviceMemory : M unit :=
  check 110 (cuMemFree buf_a) ;;
  check 111 (cuMemFree buf_b) ;;
  check 112 (cuMemFree buf_c).

Definition runKernel (n : Z) : M unit :=
  check 119 (cuDeviceGetAttribute CU_DEVICE_ATTRIBUTE_MAX_BLOCK_DIM_X) ;;
  let block_size := attrValue drv CU_DEVICE_ATTRIBUTE_MAX_BLOCK_DIM_X in
  match grid_dim_x n block_size with
  | None => fault
  | Some grid => check 121 (cuLaunchKernel (launch_config grid block_size n))
  end.

(** Lines 134-137 of [main]. *)
Definition init_host_arrays (n : Z) : M unit :=
  for_upto n (fun i =>
    store buf_a i (Int.sub n i) ;;
    store buf_b i (Int.mul i i)).

(** Lines 157-161 of [main]. *)
Definition check_results (n : Z) : M unit :=
  for_upto n (fun i =>
    bad <- mismatch i ;;
    if (bad : bool) then report i else ret tt).

Definition main : M Z :=
  let n := N in
  declare buf_a n ;; declare buf_b n ;; declare buf_c n ;;
  init_host_arrays n ;;
  printf MsgInitializing ;;
  initCUDA ;;
  setupDeviceMemory n ;;
  check 147 (cuMemcpyHtoD buf_a buf_a (Int.sizeof_int * n)) ;;
  check 148 (cuMemcpyHtoD buf_b buf_b (Int.sizeof_int * n)) ;;
  printf MsgRunning ;;
  runKernel n ;;
  printf MsgKernelComplete ;;
  check 156 (cuMemcpyDtoH buf_c buf_c (Int.sizeof_int * n)) ;;
  deliver drv buf_c (Int.sizeof_int * n / Int.sizeof_int) ;;
  check_results n ;;
  printf MsgAllChecksComplete ;;
  printf MsgFinalizing ;;
  releaseDeviceMemory ;;
  finalizeCUDA ;;
  ret 0.

End Program.
End DriverApi.

(* ================================================================= *)
(** ** unified_memory.cpp *)

Module UnifiedMemory.
Section Program.

Variable drv : driver.

Definition FILE : string := "unified_memory.cpp".

Local Abbreviation check := (checkCudaErrors drv FILE).
Local Abbreviation invoke := (invoke drv).

(** The labels [exitCtx:] and [exit:] of [initCUDA]. *)
Definition initCUDA_exit : M unit :=
  exit (-1).

Definition initCUDA_exitCtx : M unit :=
  invoke cuCtxDestroy ;;
  initCUDA_exit.

Definition initCUDA : M unit :=
  let deviceCount0 := 0 in
  err <- invoke (cuInit 0) ;;
  deviceCount1 <-
    (if err =? CUDA_SUCCESS then
       check 46 cuDeviceGetCount ;;
       ret (deviceCount drv)
     else ret deviceCount0) ;;
  (if deviceCount1 =? 0 then
     fprintf_stderr MsgNoDevices ;;
     exit (-1)
   else ret tt) ;;
  check 54 (cuDeviceGet 0) ;;
  err_name <- invoke (cuDeviceGetName 100) ;;
  printf (MsgUsingDevice (if err_name =? CUDA_SUCCESS then deviceName drv
                          else uninitialised_name drv)) ;;
  check 61 (cuDeviceGetAttribute
              CU_DEVICE_ATTRIBUTE_COMPUTE_CAPABILITY_MAJOR) ;;
  check 62 (cuDeviceGetAttribute
              CU_DEVICE_ATTRIBUTE_COMPUTE_CAPABILITY_MINOR) ;;
  printf (MsgComputeCapability
            (attrValue drv CU_DEVICE_ATTRIBUTE_COMPUTE_CAPABILITY_MAJOR)
            (attrValue drv CU_DEVICE_ATTRIBUTE_COMPUTE_CAPABILITY_MINOR)) ;;
  check 65 cuDeviceTotalMem ;;
  printf (MsgTotalMem (totalMem drv)) ;;
  printf (Msg64bit (totalMem drv >? 4 * 1024 * 1024 * 1024)) ;;
  check 74 (cuDeviceGetAttribute CU_DEVICE_ATTRIBUTE_UNIFIED_ADDRESSING) ;;
  let hasUVM := attrValue drv CU_DEVICE_ATTRIBUTE_UNIFIED_ADDRESSING in
  if negb (hasUVM =? 0) then
    printf MsgUvmSupported ;;
    err <- invoke (cuCtxCreate 0) ;;
    if negb (err =? CUDA_SUCCESS) then
      fprintf_stderr MsgCtxError ;;
      initCUDA_exitCtx
    else
    err <- invoke (cuModuleLoad module_file) ;;
    if negb (err =? CUDA_SUCCESS) then
      fprintf_stderr (MsgModuleLoadError module_file) ;;
      initCUDA_exitCtx
    else
    err <- invoke (cuModuleGetFunction kernel_name) ;;
    if negb (err =? CUDA_SUCCESS) then
      fprintf_stderr (MsgGetFunctionError kernel_name) ;;
      initCUDA_exitCtx
    else ret tt
  else
    fprintf_stderr MsgUvmNotSupported ;;
    initCUDA_exit.

Definition finalizeCUDA : M unit :=
  invoke cuCtxDestroy ;;
  ret tt.

(** A successful [cuMemAllocHost] makes the pointer refer to [n]
    ints of pinned host memory. *)
Definition setupDeviceMemory (n : Z) : M unit :=
  check 114 (cuMemAllocHost buf_a (Int.sizeof_int * n)) ;;
  declare buf_a n ;;
  check 115 (cuMemAllocHost buf_b (Int.sizeof_int * n)) ;;
  declare buf_b n ;;
  check 116 (cuMemAllocHost buf_c (Int.sizeof_int * n)) ;;
  declare buf_c n.

Definition releaseDeviceMemory : M unit :=
  check 121 (cuMemFreeHost buf_a) ;;
  check 122 (cuMemFreeHost buf_b) ;;
  check 123 (cuMemFreeHost buf_c).

(** The kernel writes the pinned output buffer some time after a
    successful launch; the host does not look at it before
    [runKernel] returns, so the write is placed at the launch. *)
Definition runKernel (n : Z) : M unit :=
  check 130 (cuDeviceGetAttribute CU_DEVICE_ATTRIBUTE_MAX_BLOCK_DIM_X) ;;
  let block_size := attrValue drv CU_DEVICE_ATTRIBUTE_MAX_BLOCK_DIM_X in
  match grid_dim_x n block_size with
  | None => fault
  | Some grid =>
      check 132 (cuLaunchKernel (launch_config grid block_size n)) ;;
      deliver drv buf_c n
  end.

(** Lines 154-157 of [main]. *)
Definition init_arrays (n : Z) : M unit :=
  for_upto n (fun i =>
    store buf_a i (Int.sub n i) ;;
    store buf_b i (Int.mul i i)).

(** One verification loop, lines 170-176 and again 177-183; the
    result is the value of [correct] after the loop. *)
Fixpoint check_from (i : Z) (count : nat) (correct : bool) : M bool :=
  match count with
  | O => ret correct
  | S k =>
      bad <- mismatch i ;;
      correct' <- (if (bad : bool) then report i ;; ret false
                   else ret correct) ;;
      check_from (i + 1) k correct'
  end.

Definition check_results (n : Z) (correct : bool) : M bool :=
  check_from 0 (Z.to_nat n) correct.

Definition main : M Z :=
  let n := N in
  printf MsgInitializing ;;
  initCUDA ;;
  setupDeviceMemory n ;;
  init_arrays n ;;
  printf MsgRunning ;;
  runKernel n ;;
  invoke (cuStreamSynchronize 0) ;;
  printf MsgKernelComplete ;;
  let correct := true in
  correct <- check_results n correct ;;
  correct <- check_results n correct ;;
  (if (correct : bool) then printf MsgAllChecksComplete
   else printf MsgResultIncorrect) ;;
  printf MsgFinalizing ;;
  releaseDeviceMemory ;;
  finalizeCUDA ;;
  ret 0.

End Program.
End UnifiedMemory.


(* ================================================================= *)
(** ** The two programs side by side *)

Inductive variant : Type := driver_api | unified_memory.

Definition program (v : variant) (drv : driver) : M Z :=
  match v with
  | driver_api => DriverApi.main drv
  | unified_memory => UnifiedMemory.main drv
  end.

Definition file_of (v : variant) : string :=
  match v with
  | driver_api => DriverApi.FILE
  | unified_memory => UnifiedMemory.FILE
  end.

(** Status and trace of a whole run against driver [drv]. *)
Definition status (v : variant) (drv : driver) : termination :=
  status_of (run (program v drv)).

Definition events (v : variant) (drv : driver) : trace :=
  trace_of (run (program v drv)).

(* ================================================================= *)
(** ** Vocabulary of the properties *)

(** *** What a verification loop writes to the trace

    [a], [b] and [c] give the content of the three arrays at the time
    of the check. *)
Section CheckEvents.

Variables a b c : Z -> Z.

Definition expected (i : Z) : Z := Int.add (a i) (b i).

Definition matches (i : Z) : bool := c i =? expected i.

Definition position_events (i : Z) : trace :=
  [EvLoad buf_c i (c i); EvLoad buf_a i (a i); EvLoad buf_b i (b i)]
    ++ (if matches i then []
        else [EvLoad buf_a i (a i); EvLoad buf_b i (b i);
              EvLoad buf_c i (c i);
              EvStdout (MsgMismatch i (expected i) (c i))]).

Fixpoint loop_events (i : Z) (count : nat) : trace :=
  match count with
  | O => []
  | S k => position_events i ++ loop_events (i + 1) k
  end.

Fixpoint all_match (i : Z) (count : nat) : bool :=
  match count with
  | O => true
  | S k => matches i && all_match (i + 1) k
  end.

End CheckEvents.

(** The addends both programs store. *)
Definition addend_a (i : Z) : Z := N - i.
Definition addend_b (i : Z) : Z := i * i.

(** What one verification loop of a complete run writes. *)
Definition one_pass (drv : driver) : trace :=
  loop_events addend_a addend_b (kernelOutput drv) 0 (Z.to_nat N).

(** The cells [0 .. n-1] of array [b] hold the values of [f]. *)
Definition holds (s : state) (b : buffer) (f : Z -> Z) (n : Z) : Prop :=
  forall j, 0 <= j < n ->
    nth_error (mem s b) (Z.to_nat j) = Some (Some (f j)).

Definition append_log (l : trace) (s : state) : state :=
  {| mem_a := mem_a s; mem_b := mem_b s; mem_c := mem_c s;
     log := log s ++ l |}.

(** *** What the two streams show *)

Fixpoint stdout_text (t : trace) : string :=
  match t with
  | [] => EmptyString
  | EvStdout m :: t' => String.append (Printf.render m) (stdout_text t')
  | _ :: t' => stdout_text t'
  end.

Fixpoint stderr_text (t : trace) : string :=
  match t with
  | [] => EmptyString
  | EvStderr m :: t' => String.append (Printf.render m) (stderr_text t')
  | _ :: t' => stderr_text t'
  end.

(** *** Kinds of events *)

Definition count (p : event -> bool) (t : trace) : nat :=
  List.length (filter p t).

Definition is_stderr (e : event) : bool :=
  match e with EvStderr _ => true | _ => false end.

Definition is_store (e : event) : bool :=
  match e with EvStore _ _ _ => true | _ => false end.

Definition is_output_read (e : event) : bool :=
  match e with EvLoad buf_c _ _ => true | _ => false end.

Definition is_launch (e : event) : bool :=
  match e with EvCall (cuLaunchKernel _) _ => true | _ => false end.

Definition is_sync (e : event) : bool :=
  match e with EvCall (cuStreamSynchronize _) _ => true | _ => false end.

(** The error line of position [i], whatever values it reports. *)
Definition is_error_line (i : Z) (e : event) : bool :=
  match e with EvStdout (MsgMismatch j _ _) => j =? i | _ => false end.

Definition is_verdict (e : event) : bool :=
  match e with
  | EvStdout MsgAllChecksComplete | EvStdout MsgResultIncorrect => true
  | _ => false
  end.

(** Events a verification loop can produce. *)
Definition is_check_event (e : event) : bool :=
  match e with
  | EvLoad _ _ _ | EvStdout (MsgMismatch _ _ _) => true
  | _ => false
  end.

(** *** How the programs treat return codes *)

(** Calls written inside [checkCudaErrors( ... )]. *)
Definition wrapped (c : call) : bool :=
  match c with
  | cuInit _ | cuDeviceGetName _ | cuCtxCreate _ | cuModuleLoad _
  | cuModuleGetFunction _ | cuCtxDestroy | cuStreamSynchronize _ => false
  | _ => true
  end.

(** Calls whose code is looked at in any way. *)
Definition checked (c : call) : bool :=
  match c with
  | cuDeviceGetName _ | cuCtxDestroy | cuStreamSynchronize _ => false
  | _ => true
  end.

(** The value of [__LINE__] in the [checkCudaErrors( ... )] that
    holds the call, read off the two source files; [None] for a call
    the file does not write inside the macro. *)
Definition source_line (v : variant) (c : call) : option Z :=
  match v, c with
  | _, cuDeviceGetCount => Some 46
  | _, cuDeviceGet _ => Some 54
  | _, cuDeviceGetAttribute CU_DEVICE_ATTRIBUTE_COMPUTE_CAPABILITY_MAJOR =>
      Some 61
  | _, cuDeviceGetAttribute CU_DEVICE_ATTRIBUTE_COMPUTE_CAPABILITY_MINOR =>
      Some 62
  | _, cuDeviceTotalMem => Some 65
  | driver_api, cuMemAlloc buf_a _ => Some 103
  | driver_api, cuMemAlloc buf_b _ => Some 104
  | driver_api, cuMemAlloc buf_c _ => Some 105
  | driver_api, cuMemFree buf_a => Some 110
  | driver_api, cuMemFree buf_b => Some 111
  | driver_api, cuMemFree buf_c => Some 112
  | driver_api, cuDeviceGetAttribute CU_DEVICE_ATTRIBUTE_MAX_BLOCK_DIM_X =>
      Some 119
  | driver_api, cuLaunchKernel _ => Some 121
  | driver_api, cuMemcpyHtoD buf_a _ _ => Some 147
  | driver_api, cuMemcpyHtoD buf_b _ _ => Some 148
  | driver_api, cuMemcpyDtoH _ _ _ => Some 156
  | unified_memory,
    cuDeviceGetAttribute CU_DEVICE_ATTRIBUTE_UNIFIED_ADDRESSING => Some 74
  | unified_memory, cuMemAllocHost buf_a _ => Some 114
  | unified_memory, cuMemAllocHost buf_b _ => Some 115
  | unified_memory, cuMemAllocHost buf_c _ => Some 116
  | unified_memory, cuMemFreeHost buf_a => Some 121
  | unified_memory, cuMemFreeHost buf_b => Some 122
  | unified_memory, cuMemFreeHost buf_c => Some 123
  | unified_memory,
    cuDeviceGetAttribute CU_DEVICE_ATTRIBUTE_MAX_BLOCK_DIM_X => Some 130
  | unified_memory, cuLaunchKernel _ => Some 132
  | _, _ => None
  end.

(** A failing wrapped call is followed by its report, which names the
    code, the file and the source line of the call, and by nothing
    else. *)
Fixpoint fail_fast (v : variant) (t : trace) : bool :=
  match t with
  | [] => true
  | EvCall c r :: rest =>
      if wrapped c && negb (r =? CUDA_SUCCESS) then
        match rest with
        | [EvStderr (MsgCudaError r' f l)] =>
            (r' =? r) && String.eqb f (file_of v)
            && match source_line v c with
               | Some l' => l =? l'
               | None => false
               end
        | _ => false
        end
      else fail_fast v rest
  | _ :: rest => fail_fast v rest
  end.

(** No checked call in the trace has failed. *)
Definition call_ok (e : event) : bool :=
  match e with
  | EvCall c r => negb (checked c) || (r =? CUDA_SUCCESS)
  | _ => true
  end.

(** *** The steps of the procedure *)

Inductive step : Type :=
| Initialize   (* driver, device, context, module and kernel handles *)
| Allocate     (* the three buffers *)
| Populate     (* the host writes the addends *)
| Upload       (* host-to-device copies of the addends *)
| Launch       (* block size query, kernel launch, synchronize *)
| Inspect      (* device-to-host copy and host reads *)
| Release.     (* buffers and context *)

Definition step_of (e : event) : option step :=
  match e with
  | EvCall c _ =>
      match c with
      | cuInit _ | cuDeviceGetCount | cuDeviceGet _ | cuDeviceGetName _
      | cuDeviceTotalMem | cuCtxCreate _ | cuModuleLoad _
      | cuModuleGetFunction _ => Some Initialize
      | cuDeviceGetAttribute CU_DEVICE_ATTRIBUTE_MAX_BLOCK_DIM_X =>
          Some Launch
      | cuDeviceGetAttribute _ => Some Initialize
      | cuMemAlloc _ _ | cuMemAllocHost _ _ => Some Allocate
      | cuMemcpyHtoD _ _ _ => Some Upload
      | cuLaunchKernel _ | cuStreamSynchronize _ => Some Launch
      | cuMemcpyDtoH _ _ _ => Some Inspect
      | cuMemFree _ | cuMemFreeHost _ | cuCtxDestroy => Some Release
      end
  | EvStore _ _ _ => Some Populate
  | EvLoad _ _ _ => Some Inspect
  | EvStdout _ | EvStderr _ => None
  end.

(** The order the specification gives for both programs; it has no
    separate upload step, the copies belong to populating inputs. *)
Definition spec_rank (s : step) : nat :=
  match s with
  | Initialize => 0 | Allocate => 1 | Populate => 2 | Upload => 2
  | Launch => 3 | Inspect => 4 | Release => 5
  end%nat.

(** The order [driver_api.cpp] follows. *)
Definition driver_api_rank (s : step) : nat :=
  match s with
  | Populate => 0 | Initialize => 1 | Allocate => 2 | Upload => 3
  | Launch => 4 | Inspect => 5 | Release => 6
  end%nat.

(** [ordered_from rank r t]: along [t] the rank of the steps never
    decreases, starting from rank [r]. *)
Fixpoint ordered_from (rank : step -> nat) (r : nat) (t : trace) : bool :=
  match t with
  | [] => true
  | e :: t' =>
      match step_of e with
      | None => ordered_from rank r t'
      | Some s => (r <=? rank s)%nat && ordered_from rank (rank s) t'
      end
  end.

(** Whenever an event of step [s1] comes before one of step [s2],
    [s1] does not rank after [s2]. *)
Definition follows (rank : step -> nat) (t : trace) : Prop :=
  forall l1 e1 l2 e2 l3 s1 s2,
    t = l1 ++ e1 :: l2 ++ e2 :: l3 ->
    step_of e1 = Some s1 -> step_of e2 = Some s2 ->
    (rank s1 <= rank s2)%nat.

Definition step_eqb (s1 s2 : step) : bool :=
  Nat.eqb (driver_api_rank s1) (driver_api_rank s2).

(** The steps of a trace in the order in which it enters them. *)
Fixpoint phases_from (last : option step) (t : trace) : list step :=
  match t with
  | [] => []
  | e :: t' =>
      match step_of e with
      | None => phases_from last t'
      | Some s =>
          match last with
          | Some s' =>
              if step_eqb s' s then phases_from last t'
              else s :: phases_from (Some s) t'
          | None => s :: phases_from (Some s) t'
          end
      end
  end.

Definition phases (t : trace) : list step := phases_from None t.

(** *** Launch, synchronize, read *)

Inductive sync_state : Type := Idle | Launched | Synced.

(** One step of the protocol "launch once, then synchronize once on
    the default stream, and only then read the output"; [None] when
    the event breaks it. *)
Definition sync_step (q : sync_state) (e : event) : option sync_state :=
  match e with
  | EvCall (cuLaunchKernel _) _ =>
      match q with Idle => Some Launched | _ => None end
  | EvCall (cuStreamSynchronize stream) _ =>
      match q with
      | Launched => if stream =? 0 then Some Synced else None
      | _ => None
      end
  | EvLoad buf_c _ _ =>
      match q with Synced => Some Synced | _ => None end
  | _ => Some q
  end.

Fixpoint sync_run (q : sync_state) (t : trace) : option sync_state :=
  match t with
  | [] => Some q
  | e :: t' =>
      match sync_step q e with
      | Some q' => sync_run q' t'
      | None => None
      end
  end.

(** *** The bound N *)


Definition allocation (e : event) : option buffer :=
  match e with
  | EvCall (cuMemAlloc b _) _ | EvCall (cuMemAllocHost b _) _ => Some b
  | _ => None
  end.

Fixpoint allocations (t : trace) : list buffer :=
  match t with
  | [] => []
  | e :: t' =>
      match allocation e with
      | Some b => b :: allocations t'
      | None => allocations t'
      end
  end.

(** *** Drivers that let a program run to its end *)

(** Every call whose code the programs look at succeeds, there is a
    device, its block width is not zero and, for
    [unified_memory.cpp], it has unified addressing. *)
Definition cooperative (v : variant) (drv : driver) : Prop :=
  (forall c, checked c = true -> result drv c = CUDA_SUCCESS)
  /\ deviceCount drv <> 0
  /\ attrValue drv CU_DEVICE_ATTRIBUTE_MAX_BLOCK_DIM_X <> 0
  /\ (v = unified_memory ->
      attrValue drv CU_DEVICE_ATTRIBUTE_UNIFIED_ADDRESSING <> 0).

(** *** Ceiling of a quotient *)


(** *** Bringing the context up and down *)

(** The three calls of [initCUDA] whose code is compared by hand, with
    the line each prints to stderr when it fails. *)
Definition bringup_message (c : call) : option message :=
  match c with
  | cuCtxCreate _ => Some MsgCtxError
  | cuModuleLoad fname => Some (MsgModuleLoadError fname)
  | cuModuleGetFunction name => Some (MsgGetFunctionError name)
  | _ => None
  end.

Definition is_bringup (e : event) : bool :=
  match e with
  | EvCall (cuCtxCreate _) _ | EvCall (cuModuleLoad _) _
  | EvCall (cuModuleGetFunction _) _ => true
  | _ => false
  end.

Definition is_ctx_create (e : event) : bool :=
  match e with EvCall (cuCtxCreate _) _ => true | _ => false end.

Definition is_ctx_destroy (e : event) : bool :=
  match e with EvCall cuCtxDestroy _ => true | _ => false end.

Definition is_uva_query (e : event) : bool :=
  match e with
  | EvCall (cuDeviceGetAttribute CU_DEVICE_ATTRIBUTE_UNIFIED_ADDRESSING) _ =>
      true
  | _ => false
  end.

Definition is_block_query (e : event) : bool :=
  match e with
  | EvCall (cuDeviceGetAttribute CU_DEVICE_ATTRIBUTE_MAX_BLOCK_DIM_X) _ =>
      true
  | _ => false
  end.

(** No call inside [checkCudaErrors( ... )] in the trace has failed. *)
Definition wrapped_ok (e : event) : bool :=
  match e with
  | EvCall c r => negb (wrapped c) || (r =? CUDA_SUCCESS)
  | _ => true
  end.

Definition is_driver_call (e : event) : bool :=
  match e with EvCall _ _ => true | _ => false end.

(** *** One event before another *)

(** A call of kind [k] that returned [CUDA_SUCCESS]. *)
Definition succeeded (k : call -> bool) (e : event) : bool :=
  match e with
  | EvCall c r => k c && (r =? CUDA_SUCCESS)
  | _ => false
  end.

(** [guarded p q seen t]: every event of kind [q] in [t] comes after
    an event of kind [p]; [seen] tells whether one has gone by
    already. *)
Fixpoint guarded (p q : event -> bool) (seen : bool) (t : trace) : bool :=
  match t with
  | [] => true
  | e :: t' => (negb (q e) || seen) && guarded p q (seen || p e) t'
  end.

(** [closed_by p q t]: no event of kind [q] comes after an event of
    kind [p]. *)
Fixpoint closed_by (p q : event -> bool) (t : trace) : bool :=
  match t with
  | [] => true
  | e :: t' =>
      (if p e then forallb (fun x => negb (q x)) t' else true)
      && closed_by p q t'
  end.

(** *** The life of a buffer *)

Definition buffer_eqb (b1 b2 : buffer) : bool :=
  match b1, b2 with
  | buf_a, buf_a | buf_b, buf_b | buf_c, buf_c => true
  | _, _ => false
  end.

Definition is_alloc (b : buffer) (c : call) : bool :=
  match c with
  | cuMemAlloc b' _ | cuMemAllocHost b' _ => buffer_eqb b' b
  | _ => false
  end.

Definition is_free (b : buffer) (e : event) : bool :=
  match e with
  | EvCall (cuMemFree b') _ | EvCall (cuMemFreeHost b') _ => buffer_eqb b' b
  | _ => false
  end.

(** The event hands the pointer [d_b] to the driver or dereferences
    it.  In [driver_api.cpp] the host arrays are separate objects, so
    its stores and loads do not count; in [unified_memory.cpp] they go
    through the allocated pointer. *)
Definition touches (v : variant) (b : buffer) (e : event) : bool :=
  match e with
  | EvCall (cuMemcpyHtoD dst _ _) _ => buffer_eqb dst b
  | EvCall (cuMemcpyDtoH _ src _) _ => buffer_eqb src b
  | EvCall (cuLaunchKernel _) _ => true
  | EvStore b' _ _ | EvLoad b' _ _ =>
      match v with
      | unified_memory => buffer_eqb b' b
      | driver_api => false
      end
  | _ => is_free b e
  end.

(** *** Copies and launch *)

Definition is_upload (b : buffer) (c : call) : bool :=
  match c with
  | cuMemcpyHtoD dst src _ => buffer_eqb dst b && buffer_eqb src b
  | _ => false
  end.

Definition is_download (c : call) : bool :=
  match c with
  | cuMemcpyDtoH buf_c buf_c _ => true
  | _ => false
  end.

Definition is_launch_call (c : call) : bool :=
  match c with cuLaunchKernel _ => true | _ => false end.

Definition is_get_function (c : call) : bool :=
  match c with cuModuleGetFunction _ => true | _ => false end.

Definition is_module_load (c : call) : bool :=
  match c with cuModuleLoad _ => true | _ => false end.

Definition is_context_create (c : call) : bool :=
  match c with cuCtxCreate _ => true | _ => false end.

Definition is_device_get (c : call) : bool :=
  match c with cuDeviceGet _ => true | _ => false end.

(** Calls that take the global [device] as an argument. *)
Definition takes_device (e : event) : bool :=
  match e with
  | EvCall (cuDeviceGetName _) _ | EvCall (cuDeviceGetAttribute _) _
  | EvCall cuDeviceTotalMem _ | EvCall (cuCtxCreate _) _ => true
  | _ => false
  end.

Definition is_call_of (k : call -> bool) (e : event) : bool :=
  match e with EvCall c _ => k c | _ => false end.

Definition is_mismatch_line (e : event) : bool :=
  match e with EvStdout (MsgMismatch _ _ _) => true | _ => false end.

(** *** What the initialisation loop writes *)

(** The stores of the loop [a[i] = n - i; b[i] = i * i] from position
    [i] for [k] rounds, when nothing overflows. *)
Fixpoint fill_events (n i : Z) (k : nat) : trace :=
  match k with
  | O => []
  | S k' =>
      [EvStore buf_a i (n - i); EvStore buf_b i (i * i)]
        ++ fill_events n (i + 1) k'
  end.

(** The largest [n] for which [i * i] fits an [int] for every
    [i < n]. *)
Definition max_fill : Z := 46341.

(** *** What stdout shows *)

Fixpoint stdout_messages (t : trace) : list message :=
  match t with
  | [] => []
  | EvStdout m :: t' => m :: stdout_messages t'
  | _ :: t' => stdout_messages t'
  end.

(** The lines [initCUDA] prints about the device. *)
Definition banner (v : variant) (drv : driver) : list message :=
  [MsgUsingDevice (deviceName drv);
   MsgComputeCapability
     (attrValue drv CU_DEVICE_ATTRIBUTE_COMPUTE_CAPABILITY_MAJOR)
     (attrValue drv CU_DEVICE_ATTRIBUTE_COMPUTE_CAPABILITY_MINOR);
   MsgTotalMem (totalMem drv);
   Msg64bit (totalMem drv >? 4 * 1024 * 1024 * 1024)]
    ++ match v with
       | driver_api => []
       | unified_memory => [MsgUvmSupported]
       end.

(* ================================================================= *)
(** ** Some drivers *)

Definition attributes (block_size : Z) (a : attribute) : Z :=
  match a with
  | CU_DEVICE_ATTRIBUTE_COMPUTE_CAPABILITY_MAJOR => 7
  | CU_DEVICE_ATTRIBUTE_COMPUTE_CAPABILITY_MINOR => 5
  | CU_DEVICE_ATTRIBUTE_UNIFIED_ADDRESSING => 1
  | CU_DEVICE_ATTRIBUTE_MAX_BLOCK_DIM_X => block_size
  end.

(** One device, every call succeeds, the kernel adds. *)
Definition working_driver : driver :=
  {| result := fun _ => CUDA_SUCCESS;
     deviceCount := 1;
     deviceName := "GPU";
     attrValue := attributes 1024;
     totalMem := 8589934592;
     kernelOutput := fun i => addend_a i + addend_b i;
     uninitialised_name := EmptyString |}.

(** Every call succeeds but the output buffer holds zeros. *)
Definition zero_output_driver : driver :=
  {| result := fun _ => CUDA_SUCCESS;
     deviceCount := 1;
     deviceName := "GPU";
     attrValue := attributes 1024;
     totalMem := 8589934592;
     kernelOutput := fun _ => 0;
     uninitialised_name := EmptyString |}.

(** [cuStreamSynchronize] reports CUDA_ERROR_LAUNCH_FAILED (719); the
    other calls succeed. *)
Definition sync_failure_driver : driver :=
  {| result := fun c =>
       match c with cuStreamSynchronize _ => 719 | _ => CUDA_SUCCESS end;
     deviceCount := 1;
     deviceName := "GPU";
     attrValue := attributes 1024;
     totalMem := 8589934592;
     kernelOutput := fun i => addend_a i + addend_b i;
     uninitialised_name := EmptyString |}.

(** [cuInit] reports CUDA_ERROR_NO_DEVICE (100). *)
Definition init_failure_driver : driver :=
  {| result := fun c => match c with cuInit _ => 100 | _ => CUDA_SUCCESS end;
     deviceCount := 1;
     deviceName := "GPU";
     attrValue := attributes 1024;
     totalMem := 8589934592;
     kernelOutput := fun i => addend_a i + addend_b i;
     uninitialised_name := EmptyString |}.

(** The third allocation reports CUDA_ERROR_OUT_OF_MEMORY (2). *)
Definition alloc_failure_driver : driver :=
  {| result := fun c =>
       match c with
       | cuMemAlloc buf_c _ | cuMemAllocHost buf_c _ => 2
       | _ => CUDA_SUCCESS
       end;
     deviceCount := 1;
     deviceName := "GPU";
     attrValue := attributes 1024;
     totalMem := 8589934592;
     kernelOutput := fun i => addend_a i + addend_b i;
     uninitialised_name := EmptyString |}.


(** *** More drivers *)

(** The module file is missing: [cuModuleLoad] reports
    CUDA_ERROR_FILE_NOT_FOUND (301). *)
Definition module_failure_driver : driver :=
  {| result := fun c =>
       match c with cuModuleLoad _ => 301 | _ => CUDA_SUCCESS end;
     deviceCount := 1;
     deviceName := "GPU";
     attrValue := attributes 1024;
     totalMem := 8589934592;
     kernelOutput := fun i => addend_a i + addend_b i;
     uninitialised_name := EmptyString |}.

(** A device without unified addressing. *)
Definition no_uva_driver : driver :=
  {| result := fun _ => CUDA_SUCCESS;
     deviceCount := 1;
     deviceName := "GPU";
     attrValue := fun a =>
       match a with
       | CU_DEVICE_ATTRIBUTE_UNIFIED_ADDRESSING => 0
       | _ => attributes 1024 a
       end;
     totalMem := 8589934592;
     kernelOutput := fun i => addend_a i + addend_b i;
     uninitialised_name := EmptyString |}.

(** The driver initialises and counts zero devices. *)
Definition no_device_driver : driver :=
  {| result := fun _ => CUDA_SUCCESS;
     deviceCount := 0;
     deviceName := "GPU";
     attrValue := attributes 1024;
     totalMem := 8589934592;
     kernelOutput := fun i => addend_a i + addend_b i;
     uninitialised_name := EmptyString |}.

(** A device that reports a block width of zero. *)
Definition zero_block_driver : driver :=
  {| result := fun _ => CUDA_SUCCESS;
     deviceCount := 1;
     deviceName := "GPU";
     attrValue := attributes 0;
     totalMem := 8589934592;
     kernelOutput := fun i => addend_a i + addend_b i;
     uninitialised_name := EmptyString |}.

(* ================================================================= *)
(** ** C [int] arithmetic: facts *)

Lemma wrap_in_range x : Int.in_range x -> Int.wrap x = x.
Proof.
  unfold Int.in_range, Int.wrap, Int.INT_MIN, Int.INT_MAX, Int.modulus.
  intros H. rewrite Z.mod_small; lia.
Qed.

Lemma expected_addends i :
  0 <= i < N -> expected addend_a addend_b i = addend_a i + addend_b i.
Proof.
  unfold expected, addend_a, addend_b, Int.add, N. intros H.
  apply wrap_in_range. unfold Int.in_range, Int.INT_MIN, Int.INT_MAX. nia.
Qed.




(* ================================================================= *)
(** ** Output: examples *)

Lemma render_error_line :
  Printf.render (MsgMismatch 3 16 0)
  = String.append "* Error at array position 3: Expected 16, Got 0"
      Printf.nl.
Proof. vm_compute. reflexivity. Qed.

Lemma render_driver_error :
  Printf.render (MsgCudaError 2 DriverApi.FILE 105)
  = String.append
      "CUDA Driver API error = 0002 from file <driver_api.cpp>, line 105."
      Printf.nl.
Proof. vm_compute. reflexivity. Qed.

Lemma stderr_of_failed_init :
  stderr_text (events unified_memory init_failure_driver)
  = String.append "Error: no devices supporting CUDA" Printf.nl.
Proof. vm_compute. reflexivity. Qed.

Lemma stdout_of_failed_allocation :
  stdout_text (events driver_api alloc_failure_driver)
  = String.concat Printf.nl
      ["- Initializing..."%string;
       "> Using device 0: GPU"%string;
       "> GPU Device has SM 7.5 compute capability"%string;
       "  Total amount of global memory:   8589934592 bytes"%string;
       "  64-bit Memory Address:           YES"%string;
       EmptyString]
  /\ stderr_text (events driver_api alloc_failure_driver)
     = String.append
         "CUDA Driver API error = 0002 from file <driver_api.cpp>, line 105."
         Printf.nl.
Proof. split; vm_compute; reflexivity. Qed.

(* ================================================================= *)
(** ** The state and the monad: facts *)

Lemma mem_append_log l s b : mem (append_log l s) b = mem s b.
Proof. destruct b; reflexivity. Qed.

Lemma holds_append_log l s b f n :
  holds s b f n -> holds (append_log l s) b f n.
Proof. intros H j Hj. rewrite mem_append_log. auto. Qed.

Lemma append_log_nil s : append_log [] s = s.
Proof. destruct s. unfold append_log. cbn. now rewrite app_nil_r. Qed.

Lemma append_log_app l1 l2 s :
  append_log l2 (append_log l1 s) = append_log (l1 ++ l2) s.
Proof. unfold append_log. cbn. now rewrite app_assoc. Qed.

Lemma emit_as_append e s : emit e s = append_log [e] s.
Proof. reflexivity. Qed.

Lemma load_holds s b f n i :
  holds s b f n -> 0 <= i < n ->
  load b i s = (Ret (f i), append_log [EvLoad b i (f i)] s).
Proof.
  intros H Hi. unfold load.
  destruct (i <? 0) eqn:E; [apply Z.ltb_lt in E; lia|].
  now rewrite (H i Hi).
Qed.

(* ================================================================= *)
(** ** The verification loops *)

Section CheckLoops.

Variables a b c : Z -> Z.
Variable n : Z.
Variable s0 : state.
Hypothesis Ha : holds s0 buf_a a n.
Hypothesis Hb : holds s0 buf_b b n.
Hypothesis Hc : holds s0 buf_c c n.

Lemma mismatch_spec l i :
  0 <= i < n ->
  mismatch i (append_log l s0)
  = (Ret (negb (matches a b c i)),
     append_log (l ++ [EvLoad buf_c i (c i); EvLoad buf_a i (a i);
                       EvLoad buf_b i (b i)]) s0).
Proof.
  intros Hi. unfold mismatch, bind.
  rewrite (@load_holds _ buf_c c n i) by (auto using holds_append_log).
  rewrite (@load_holds _ buf_a a n i) by (auto using holds_append_log).
  rewrite (@load_holds _ buf_b b n i) by (auto using holds_append_log).
  unfold ret. rewrite !append_log_app, <- ?app_assoc. reflexivity.
Qed.

Lemma report_spec l i :
  0 <= i < n ->
  report i (append_log l s0)
  = (Ret tt,
     append_log (l ++ [EvLoad buf_a i (a i); EvLoad buf_b i (b i);
                       EvLoad buf_c i (c i);
                       EvStdout (MsgMismatch i (expected a b i) (c i))])
       s0).
Proof.
  intros Hi. unfold report, bind.
  rewrite (@load_holds _ buf_a a n i) by (auto using holds_append_log).
  rewrite (@load_holds _ buf_b b n i) by (auto using holds_append_log).
  rewrite (@load_holds _ buf_c c n i) by (auto using holds_append_log).
  unfold printf. rewrite emit_as_append, !append_log_app, <- ?app_assoc.
  reflexivity.
Qed.

(** The loop of [driver_api.cpp], from position [i] for [k] rounds. *)
Lemma da_check_from_spec k : forall i l,
  0 <= i -> i + Z.of_nat k <= n ->
  for_from i k
    (fun i => bad <- mismatch i ;; if (bad : bool) then report i else ret tt)
    (append_log l s0)
  = (Ret tt, append_log (l ++ loop_events a b c i k) s0).
Proof.
  induction k as [|k IH]; intros i l Hi Hk.
  - cbn. now rewrite app_nil_r.
  - cbn [for_from loop_events]. unfold bind at 1. unfold bind at 1.
    rewrite mismatch_spec by lia.
    unfold position_events.
    destruct (matches a b c i); cbn [negb].
    + unfold ret at 1. rewrite IH by lia.
      now rewrite app_nil_r, <- ?app_assoc.
    + rewrite report_spec by lia. rewrite IH by lia.
      now rewrite <- ?app_assoc.
Qed.

(** One loop of [unified_memory.cpp]. *)
Lemma um_check_from_spec k : forall i l correct,
  0 <= i -> i + Z.of_nat k <= n ->
  UnifiedMemory.check_from i k correct (append_log l s0)
  = (Ret (correct && all_match a b c i k),
     append_log (l ++ loop_events a b c i k) s0).
Proof.
  induction k as [|k IH]; intros i l correct Hi Hk.
  - cbn. now rewrite app_nil_r, andb_true_r.
  - cbn [UnifiedMemory.check_from loop_events all_match].
    unfold bind at 1. rewrite mismatch_spec by lia.
    unfold position_events.
    destruct (matches a b c i); cbn [negb andb].
    + unfold bind at 1. unfold ret at 1. rewrite IH by lia.
      now rewrite app_nil_r, <- ?app_assoc.
    + unfold bind at 1. unfold bind at 1. rewrite report_spec by lia.
      unfold ret at 1. rewrite IH by lia.
      now rewrite andb_false_r, <- ?app_assoc.
Qed.

Lemma da_check_results_spec :
  DriverApi.check_results n s0
  = (Ret tt, append_log (loop_events a b c 0 (Z.to_nat n)) s0).
Proof.
  unfold DriverApi.check_results, for_upto.
  pose proof (da_check_from_spec (Z.to_nat n) (i := 0) []) as H.
  rewrite append_log_nil in H.
  destruct (Z.le_gt_cases 0 n) as [Hn|Hn].
  - apply H; lia.
  - destruct n; try lia. cbn. now rewrite append_log_nil.
Qed.

Lemma um_check_results_spec correct :
  UnifiedMemory.check_results n correct s0
  = (Ret (correct && all_match a b c 0 (Z.to_nat n)),
     append_log (loop_events a b c 0 (Z.to_nat n)) s0).
Proof.
  unfold UnifiedMemory.check_results.
  pose proof (um_check_from_spec (Z.to_nat n) (i := 0) [] correct) as H.
  rewrite append_log_nil in H.
  destruct (Z.le_gt_cases 0 n) as [Hn|Hn].
  - apply H; lia.
  - destruct n; try lia. cbn. now rewrite append_log_nil, andb_true_r.
Qed.

End CheckLoops.

(* ================================================================= *)
(** ** Events of a verification loop: facts *)

Section LoopEvents.

Variables a b c : Z -> Z.

Lemma position_events_in e i :
  In e (position_events a b c i) <->
  e = EvLoad buf_c i (c i) \/ e = EvLoad buf_a i (a i)
  \/ e = EvLoad buf_b i (b i)
  \/ (matches a b c i = false
      /\ e = EvStdout (MsgMismatch i (expected a b i) (c i))).
Proof.
  unfold position_events. destruct (matches a b c i); cbn; split; intros H.
  - intuition (subst; auto).
  - intuition (subst; auto; discriminate).
  - intuition (subst; auto).
  - intuition (subst; auto).
Qed.

Lemma loop_events_in e k : forall i,
  In e (loop_events a b c i k) <->
  exists j, i <= j < i + Z.of_nat k /\ In e (position_events a b c j).
Proof.
  induction k as [|k IH]; intros i.
  - cbn. split; [tauto|]. intros (j & Hj & _). lia.
  - cbn [loop_events]. rewrite in_app_iff, IH. split.
    + intros [H|(j & Hj & H)].
      * exists i. split; [lia|assumption].
      * exists j. split; [lia|assumption].
    + intros (j & Hj & H).
      destruct (Z.eq_dec j i) as [->|Hne]; [now left|].
      right. exists j. split; [lia|assumption].
Qed.

(** A loop writes nothing but loads and error lines. *)
Lemma loop_events_check k i :
  forallb is_check_event (loop_events a b c i k) = true.
Proof.
  apply forallb_forall. intros e He.
  apply loop_events_in in He. destruct He as (j & _ & He).
  apply position_events_in in He.
  destruct He as [->|[->|[->|[_ ->]]]]; reflexivity.
Qed.

(** An error line of position [j] names the expected value and the
    value found, and is there exactly when the values differ. *)
Lemma loop_events_error_line k i j e g :
  In (EvStdout (MsgMismatch j e g)) (loop_events a b c i k) <->
  i <= j < i + Z.of_nat k /\ matches a b c j = false
  /\ e = expected a b j /\ g = c j.
Proof.
  rewrite loop_events_in. split.
  - intros (j' & Hj & H). apply position_events_in in H.
    destruct H as [H|[H|[H|[Hm H]]]]; try discriminate.
    injection H as -> -> ->. auto.
  - intros (Hj & Hm & -> & ->). exists j. split; [assumption|].
    apply position_events_in. auto.
Qed.

Lemma loop_events_load k i buf j v :
  In (EvLoad buf j v) (loop_events a b c i k) <->
  i <= j < i + Z.of_nat k
  /\ v = match buf with buf_a => a j | buf_b => b j | buf_c => c j end.
Proof.
  rewrite loop_events_in. split.
  - intros (j' & Hj & H). apply position_events_in in H.
    destruct H as [H|[H|[H|[_ H]]]]; try discriminate;
      injection H as -> -> ->; auto.
  - intros (Hj & ->). exists j. split; [assumption|].
    apply position_events_in. destruct buf; auto.
Qed.

Lemma count_app p l1 l2 :
  count p (l1 ++ l2) = (count p l1 + count p l2)%nat.
Proof. unfold count. now rewrite filter_app, length_app. Qed.

Lemma count_cons p e t :
  count p (e :: t) = ((if p e then 1 else 0) + count p t)%nat.
Proof. unfold count. cbn. now destruct (p e). Qed.

Lemma count_none p q l :
  forallb q l = true -> (forall e, q e = true -> p e = false) ->
  count p l = 0%nat.
Proof.
  intros Hq Hpq. unfold count. induction l as [|e l IH]; [reflexivity|].
  cbn in Hq |- *. apply andb_true_iff in Hq. destruct Hq as [He Hl].
  rewrite (Hpq e He). auto.
Qed.

Lemma count_error_line_position i j :
  count (is_error_line j) (position_events a b c i)
  = if (i =? j) && negb (matches a b c i) then 1%nat else 0%nat.
Proof.
  unfold position_events, count.
  destruct (matches a b c i); cbn; [now rewrite andb_false_r|].
  rewrite andb_true_r. now destruct (i =? j).
Qed.

(** One pass prints the error line of a position once if the values
    differ there and not at all otherwise. *)
Lemma count_error_line k : forall i j,
  count (is_error_line j) (loop_events a b c i k)
  = if (i <=? j) && (j <? i + Z.of_nat k) && negb (matches a b c j)
    then 1%nat else 0%nat.
Proof.
  induction k as [|k IH]; intros i j.
  - cbn [loop_events].
    destruct (Z.leb_spec i j), (Z.ltb_spec j (i + Z.of_nat 0));
      try reflexivity; lia.
  - cbn [loop_events]. rewrite count_app, IH, count_error_line_position.
    destruct (Z.eqb_spec i j) as [->|Hne].
    + destruct (Z.leb_spec (j + 1) j); [lia|].
      destruct (Z.leb_spec j j); [|lia].
      destruct (Z.ltb_spec j (j + Z.of_nat (S k))); [|lia].
      cbn. now destruct (matches a b c j).
    + destruct (Z.leb_spec (i + 1) j), (Z.leb_spec i j),
        (Z.ltb_spec j (i + 1 + Z.of_nat k)),
        (Z.ltb_spec j (i + Z.of_nat (S k)));
        try reflexivity; lia.
Qed.

End LoopEvents.

(* ================================================================= *)
(** ** Checkers on traces: facts *)

(** Where an event with property [p] sits behind a prefix without
    such events, the prefix comes first. *)
Lemma prefix_before_first (p : event -> bool) pre : forall rest l1 e l2,
  forallb (fun x => negb (p x)) pre = true ->
  pre ++ rest = l1 ++ e :: l2 -> p e = true ->
  exists m, l1 = pre ++ m /\ rest = m ++ e :: l2.
Proof.
  induction pre as [|x pre IH]; intros rest l1 e l2 Hpre Heq He.
  - exists l1. auto.
  - cbn in Hpre. apply andb_true_iff in Hpre. destruct Hpre as [Hx Hpre].
    destruct l1 as [|y l1]; cbn in Heq; injection Heq as -> Heq.
    + rewrite He in Hx. discriminate.
    + destruct (IH _ _ _ _ Hpre Heq He) as (m & -> & ->).
      exists m. auto.
Qed.

Lemma in_forallb (p : event -> bool) t e :
  forallb p t = true -> In e t -> p e = true.
Proof. intros H. now apply forallb_forall. Qed.

Lemma in_filter_iff (p : event -> bool) x t :
  p x = true -> (In x t <-> In x (filter p t)).
Proof. intros Hp. rewrite filter_In. tauto. Qed.

Lemma filter_all (p : event -> bool) l :
  forallb p l = true -> filter p l = l.
Proof.
  induction l as [|e l IH]; [reflexivity|]. cbn. intros H.
  apply andb_true_iff in H. destruct H as [-> H]. now rewrite IH.
Qed.

Lemma filter_none (p q : event -> bool) l :
  (forall e, q e = true -> p e = false) ->
  forallb q l = true -> filter p l = [].
Proof.
  intros Hpq. induction l as [|e l IH]; [reflexivity|]. cbn. intros H.
  apply andb_true_iff in H. destruct H as [He H].
  rewrite (Hpq e He). auto.
Qed.

Lemma count_in (p : event -> bool) e t :
  In e t -> p e = true -> (1 <= count p t)%nat.
Proof.
  intros Hin Hp. unfold count.
  assert (H : In e (filter p t)) by (apply filter_In; auto).
  destruct (filter p t); [contradiction|cbn; lia].
Qed.

(** *** Fail fast *)

Lemma fail_fast_skip v l : forall t,
  forallb is_check_event l = true ->
  fail_fast v (l ++ t) = fail_fast v t.
Proof.
  induction l as [|e l IH]; intros t H; [reflexivity|].
  cbn in H. apply andb_true_iff in H. destruct H as [He Hl].
  destruct e as [c r|m|m|buf i x|buf i x]; try discriminate;
    cbn [app fail_fast]; auto.
Qed.

Lemma fail_fast_sound v t : forall c r,
  fail_fast v t = true ->
  In (EvCall c r) t -> wrapped c = true -> r <> CUDA_SUCCESS ->
  exists pre line,
    source_line v c = Some line
    /\ t = pre ++ [EvCall c r; EvStderr (MsgCudaError r (file_of v) line)].
Proof.
  induction t as [|e t IH]; intros c r Hff Hin Hw Hr; [contradiction|].
  destruct Hin as [->|Hin].
  - cbn [fail_fast] in Hff. rewrite Hw in Hff.
    destruct (Z.eqb_spec r CUDA_SUCCESS) as [|_]; [contradiction|].
    cbn [andb negb] in Hff.
    destruct t as [|[| |[r' f line| | | | | | | | | | | | | | | | |]| |] [|]];
      try discriminate.
    apply andb_true_iff in Hff. destruct Hff as [Hff H3].
    apply andb_true_iff in Hff. destruct Hff as [H1 H2].
    apply Z.eqb_eq in H1. apply String.eqb_eq in H2. subst.
    destruct (source_line v c) as [l'|]; [|discriminate].
    apply Z.eqb_eq in H3. subst l'.
    exists [], line. split; reflexivity.
  - assert (Ht : fail_fast v t = true).
    { destruct e as [c' r'|m|m|buf i x|buf i x]; cbn [fail_fast] in Hff;
        try assumption.
      destruct (wrapped c' && negb (r' =? CUDA_SUCCESS)); [|assumption].
      destruct t as [|[| |[r'' f line| | | | | | | | | | | | | | | | |]| |]
                       [|]];
        try discriminate; destruct Hin as [Hin|[]]; discriminate. }
    destruct (IH c r Ht Hin Hw Hr) as (pre & line & Hl & ->).
    exists (e :: pre), line. split; [exact Hl|reflexivity].
Qed.

(** *** Order of the steps *)

Lemma ordered_from_segment rank q l : forall r t,
  (r <= q)%nat ->
  Forall (fun e => step_of e = None \/ exists s, step_of e = Some s
                                                 /\ rank s = q) l ->
  ordered_from rank q t = true ->
  ordered_from rank r (l ++ t) = true.
Proof.
  induction l as [|e l IH]; intros r t Hr Hl Ht.
  - cbn [app]. revert Ht. clear -Hr. revert r q Hr.
    induction t as [|e t IH]; intros r q Hr; [reflexivity|].
    cbn [ordered_from]. destruct (step_of e) as [s|]; [|eauto].
    intros H. apply andb_true_iff in H. destruct H as [H1 H2].
    apply Nat.leb_le in H1. rewrite H2, andb_true_r.
    apply Nat.leb_le. lia.
  - inversion Hl as [|? ? He Hl']; subst. cbn [app ordered_from].
    destruct He as [->|(s & -> & Hs)]; [auto|].
    rewrite Hs. apply andb_true_iff. split; [now apply Nat.leb_le|].
    apply IH; auto.
Qed.

Lemma loop_events_inspect (rank : step -> nat) a b c i k :
  Forall (fun e => step_of e = None
                   \/ exists s, step_of e = Some s /\ rank s = rank Inspect)
    (loop_events a b c i k).
Proof.
  apply Forall_forall. intros e He.
  pose proof (@in_forallb _ _ _ (loop_events_check a b c k i) He) as Hc.
  destruct e as [c' r|[]|m|buf j v|buf j v]; try discriminate.
  - left. reflexivity.
  - right. exists Inspect. auto.
Qed.

Lemma ordered_from_bound rank t : forall r e s,
  ordered_from rank r t = true -> In e t -> step_of e = Some s ->
  (r <= rank s)%nat.
Proof.
  induction t as [|x t IH]; intros r e s H Hin He; [contradiction|].
  cbn [ordered_from] in H. destruct Hin as [->|Hin].
  - rewrite He in H. apply andb_true_iff in H. now apply Nat.leb_le.
  - destruct (step_of x) as [sx|]; [|eauto].
    apply andb_true_iff in H. destruct H as [H1 H2].
    apply Nat.leb_le in H1. specialize (IH _ _ _ H2 Hin He). lia.
Qed.

Lemma ordered_from_follows rank t : forall r,
  ordered_from rank r t = true -> follows rank t.
Proof.
  induction t as [|x t IH]; intros r H l1 e1 l2 e2 l3 s1 s2 Heq H1 H2.
  - destruct l1; discriminate.
  - cbn [ordered_from] in H. destruct l1 as [|y l1]; cbn in Heq;
      injection Heq as -> Heq.
    + rewrite H1 in H. apply andb_true_iff in H. destruct H as [_ H].
      apply (@ordered_from_bound rank t _ e2 s2 H); [|assumption].
      subst t. apply in_or_app. right. now left.
    + destruct (step_of y) as [sy|].
      * apply andb_true_iff in H. destruct H as [_ H].
        exact (IH _ H _ _ _ _ _ _ _ Heq H1 H2).
      * exact (IH _ H _ _ _ _ _ _ _ Heq H1 H2).
Qed.

Lemma phases_from_check_events l : forall t,
  forallb is_check_event l = true ->
  phases_from (Some Inspect) (l ++ t) = phases_from (Some Inspect) t.
Proof.
  induction l as [|e l IH]; intros t H; [reflexivity|].
  cbn in H. apply andb_true_iff in H. destruct H as [He Hl].
  destruct e as [c r|[]|m|buf i v|buf i v]; try discriminate;
    cbn [app phases_from step_of step_eqb driver_api_rank Nat.eqb]; auto.
Qed.

Lemma loop_events_head a b c i k :
  loop_events a b c i (S k)
  = EvLoad buf_c i (c i) :: tl (loop_events a b c i (S k)).
Proof. reflexivity. Qed.

(** A verification loop of at least one round is one Inspect phase. *)
Lemma phases_from_loop a b c i k last t :
  phases_from last (loop_events a b c i (S k) ++ t)
  = match last with
    | Some Inspect => phases_from (Some Inspect) t
    | _ => Inspect :: phases_from (Some Inspect) t
    end.
Proof.
  assert (H : forallb is_check_event
                (tl (loop_events a b c i (S k))) = true).
  { pose proof (loop_events_check a b c (S k) i) as H.
    rewrite loop_events_head in H. exact H. }
  rewrite loop_events_head.
  destruct last as [[]|];
    cbn [app phases_from step_of step_eqb driver_api_rank Nat.eqb];
    now rewrite phases_from_check_events.
Qed.

(** *** Launch, synchronize, read *)

Lemma sync_run_skip l : forall t,
  forallb is_check_event l = true ->
  sync_run Synced (l ++ t) = sync_run Synced t.
Proof.
  induction l as [|e l IH]; intros t H; [reflexivity|].
  cbn in H. apply andb_true_iff in H. destruct H as [He Hl].
  destruct e as [c r|[]|m|[] i v|[] i v]; try discriminate;
    cbn [app sync_run sync_step]; auto.
Qed.

(** The four ways an event is accepted. *)
Lemma sync_step_cases q e q1 :
  sync_step q e = Some q1 ->
  (q = Idle /\ q1 = Launched /\ exists cfg r, e = EvCall (cuLaunchKernel cfg) r)
  \/ (q = Launched /\ q1 = Synced
      /\ exists r, e = EvCall (cuStreamSynchronize 0) r)
  \/ (q = Synced /\ q1 = Synced /\ exists i v, e = EvLoad buf_c i v)
  \/ (q1 = q /\ is_launch e = false /\ is_sync e = false
      /\ is_output_read e = false).
Proof.
  destruct e as [[] r|m|m|[] i v|[] i v]; destruct q; cbn;
    intros H; try discriminate;
    try (destruct (Z.eqb_spec stream 0) as [->|]; [|discriminate]);
    injection H as <-;
    first [ left; repeat split; eauto; fail
          | right; left; repeat split; eauto; fail
          | right; right; left; repeat split; eauto; fail
          | repeat right; repeat split; reflexivity ].
Qed.

Lemma sync_run_counts t : forall q q',
  sync_run q t = Some q' ->
  (count is_launch t <= match q with Idle => 1 | _ => 0 end)%nat
  /\ (count is_sync t <= match q with Synced => 0 | _ => 1 end)%nat.
Proof.
  induction t as [|e t IH]; intros q q' H.
  - cbn. destruct q; lia.
  - cbn [sync_run] in H. destruct (sync_step q e) as [q1|] eqn:E;
      [|discriminate].
    destruct (IH _ _ H) as [IH1 IH2]. unfold count in *. cbn [filter].
    destruct (sync_step_cases _ _ E)
      as [(-> & -> & cfg & r & ->)
         |[(-> & -> & r & ->)
          |[(-> & -> & i & v & ->)|(-> & -> & -> & _)]]];
      cbn [is_launch is_sync List.length]; try lia; destruct q; lia.
Qed.

Lemma sync_run_reads t : forall q q' l1 i v l2,
  sync_run q t = Some q' -> t = l1 ++ EvLoad buf_c i v :: l2 ->
  match q with
  | Idle => exists p cfg rl m rs n,
      l1 = p ++ EvCall (cuLaunchKernel cfg) rl
             :: m ++ EvCall (cuStreamSynchronize 0) rs :: n
  | Launched => exists m rs n,
      l1 = m ++ EvCall (cuStreamSynchronize 0) rs :: n
  | Synced => True
  end.
Proof.
  induction t as [|e t IH]; intros q q' l1 i v l2 H Heq.
  - destruct l1; discriminate.
  - cbn [sync_run] in H. destruct (sync_step q e) as [q1|] eqn:E;
      [|discriminate].
    destruct l1 as [|y l1]; cbn in Heq; injection Heq as -> Heq.
    + destruct q; try exact I; discriminate.
    + specialize (IH _ _ _ _ _ _ H Heq).
      destruct (sync_step_cases _ _ E)
        as [(-> & -> & cfg & r & ->)
           |[(-> & -> & r & ->)
            |[(-> & -> & j & w & ->)|(-> & _)]]].
      * destruct IH as (m & rs & n & ->).
        exists [], cfg, r, m, rs, n. reflexivity.
      * exists [], r, l1. reflexivity.
      * exact I.
      * destruct q.
        -- destruct IH as (p & cfg & rl & m & rs & n & ->).
           exists (y :: p), cfg, rl, m, rs, n. reflexivity.
        -- destruct IH as (m & rs & n & ->).
           exists (y :: m), rs, n. reflexivity.
        -- exact I.
Qed.

(** What an accepting run of the protocol means. *)
Lemma sync_protocol_sound t q :
  sync_run Idle t = Some q ->
  (count is_sync t <= 1)%nat /\ (count is_launch t <= 1)%nat
  /\ forall l1 i v l2,
       t = l1 ++ EvLoad buf_c i v :: l2 ->
       (exists p cfg rl m rs n,
           l1 = p ++ EvCall (cuLaunchKernel cfg) rl
                  :: m ++ EvCall (cuStreamSynchronize 0) rs :: n)
       /\ count is_sync t = 1%nat /\ count is_launch t = 1%nat.
Proof.
  intros H. destruct (@sync_run_counts t Idle q H) as [Hl Hs].
  split; [assumption|]. split; [assumption|].
  intros l1 i v l2 Heq.
  pose proof (@sync_run_reads t Idle q l1 i v l2 H Heq) as Hd. cbn in Hd.
  destruct Hd as (p & cfg & rl & m & rs & n & ->).
  split; [eauto 10|].
  assert (H1 : (1 <= count is_sync t)%nat).
  { apply (@count_in is_sync (EvCall (cuStreamSynchronize 0) rs));
      [|reflexivity].
    subst t. rewrite !in_app_iff. cbn. rewrite in_app_iff. cbn. tauto. }
  assert (H2 : (1 <= count is_launch t)%nat).
  { apply (@count_in is_launch (EvCall (cuLaunchKernel cfg) rl));
      [|reflexivity].
    subst t. rewrite !in_app_iff. cbn. tauto. }
  lia.
Qed.

(** *** Allocations and the bound *)

Lemma allocations_skip l : forall t,
  forallb is_check_event l = true ->
  allocations (l ++ t) = allocations t.
Proof.
  induction l as [|e l IH]; intros t H; [reflexivity|].
  cbn in H. apply andb_true_iff in H. destruct H as [He Hl].
  destruct e as [c r|[]|m|buf i v|buf i v]; try discriminate;
    cbn [app allocations allocation]; auto.
Qed.


Lemma forallb_check_events (p : event -> bool) l :
  (forall e, is_check_event e = true -> p e = true) ->
  forallb is_check_event l = true -> forallb p l = true.
Proof.
  intros Hp H. apply forallb_forall. intros e He.
  apply Hp. exact (@in_forallb _ _ _ H He).
Qed.

Lemma existsb_stderr t :
  existsb is_stderr t = true -> exists m, In (EvStderr m) t.
Proof.
  intros H. apply existsb_exists in H. destruct H as ([| |m| |] & Hin & He);
    try discriminate. eauto.
Qed.

(** With [N] elements the launch arithmetic traps only on a block
    width of zero. *)
Lemma grid_dim_x_none block_size :
  grid_dim_x N block_size = None -> block_size = 0.
Proof.
  unfold grid_dim_x, Int.div. intros H.
  destruct (Z.eqb_spec block_size 0) as [H0|_]; [exact H0|].
  destruct (Z.eqb_spec block_size (-1)) as [H1|_].
  - subst block_size. vm_compute in H. discriminate.
  - rewrite andb_false_r in H. discriminate.
Qed.

(* ================================================================= *)
(** ** Following a run path by path *)

(** From here on a verification loop is known through its lemmas. *)
Arguments loop_events : simpl never.
Arguments all_match : simpl never.

(** The scrutinee on which the evaluation of a term is stuck. *)
Ltac head_scrut t :=
  lazymatch t with
  | match ?x with _ => _ end => head_scrut x
  | (match ?x with _ => _ end) _ => head_scrut x
  | _ => t
  end.

(** The arrays hold the addends and the device output at the check. *)
Ltac holds_tac :=
  let j := fresh "j" in
  let Hj := fresh "Hj" in
  let Hc := fresh "Hc" in
  intros j Hj;
  assert (j = 0 \/ j = 1 \/ j = 2 \/ j = 3 \/ j = 4 \/ j = 5 \/ j = 6
          \/ j = 7 \/ j = 8 \/ j = 9) as Hc by lia;
  repeat (destruct Hc as [->|Hc]; [reflexivity|]); subst j; reflexivity.

Ltac eval_in H :=
  cbv -[app Z.eqb Z.gtb grid_dim_x launch_config
        result deviceCount deviceName attrValue totalMem kernelOutput
        uninitialised_name
        DriverApi.check_results UnifiedMemory.check_results
        loop_events all_match append_log addend_a addend_b] in H.

Ltac path_step H drv :=
  lazymatch type of H with
  | _ = match ?x with _ => _ end =>
      let h := head_scrut x in
      lazymatch h with
      | DriverApi.check_results ?n ?s =>
          rewrite (@da_check_results_spec addend_a addend_b
                     (kernelOutput drv) n s) in H by holds_tac;
          let k := eval vm_compute in (Z.to_nat n) in
          change (Z.to_nat n) with k in H;
          cbv beta iota delta [append_log log mem_a mem_b mem_c] in H
      | UnifiedMemory.check_results ?n ?b ?s =>
          rewrite (@um_check_results_spec addend_a addend_b
                     (kernelOutput drv) n s) in H by holds_tac;
          let k := eval vm_compute in (Z.to_nat n) in
          change (Z.to_nat n) with k in H;
          cbv beta iota delta [append_log log mem_a mem_b mem_c andb] in H
      | 0 =? 0 => change h with true in H; cbv beta iota in H
      | _ => let E := fresh "E" in destruct h eqn:E; cbv beta iota in H
      end
  end.

Ltac tidy_codes :=
  repeat match goal with
    | E : (0 =? ?x) = true |- _ => apply Z.eqb_eq in E; symmetry in E
    | E : (?x =? 0) = true |- _ => apply Z.eqb_eq in E
    | E : (0 =? ?x) = false |- _ =>
        apply Z.eqb_neq in E; apply not_eq_sym in E
    | E : (?x =? 0) = false |- _ => apply Z.eqb_neq in E
    end.

Ltac success_codes_in H :=
  repeat match goal with
    | E : result _ _ = 0 |- _ => rewrite E in H
    end.

(** [run_paths prog drv] replaces [run prog] in the goal by its value
    on every path the driver [drv] can force. *)
Ltac run_paths prog drv :=
  let r := fresh "r" in
  let Hr := fresh "Hr" in
  remember (run prog) as r eqn:Hr;
  eval_in Hr; repeat path_step Hr drv;
  repeat rewrite <- app_assoc in Hr;
  cbn [app] in Hr;
  tidy_codes; success_codes_in Hr; subst r;
  cbn [status_of trace_of fst snd].

Ltac both_variants v drv :=
  destruct v; unfold status, events, program, file_of;
  [ run_paths (DriverApi.main drv) drv
  | run_paths (UnifiedMemory.main drv) drv ].

(** Membership of a load or an error line in a trace is membership in
    its verification loops. *)
Ltac check_events_only :=
  repeat match goal with
    | |- context [In ?x (?e :: ?t)] =>
        rewrite (@in_filter_iff is_check_event x (e :: t)) by reflexivity;
        cbn [filter is_check_event];
        rewrite ?filter_app;
        rewrite ?(@filter_all _ _ (loop_events_check _ _ _ _ _));
        cbn [filter is_check_event];
        rewrite ?app_nil_r, ?in_app_iff
    end.

(** The events of a trace in front of its first verification loop. *)
Ltac prefix_of t :=
  lazymatch t with
  | ?e :: ?l => let p := prefix_of l in constr:(e :: p)
  | _ => constr:(@nil event)
  end.

Ltac by_check_event :=
  apply loop_events_check
  || (intros [? ?|[]|?|? ? ?|? ? ?] ?; (discriminate || reflexivity)).

Ltac count_through_loops :=
  repeat first
    [ rewrite count_cons | rewrite count_app
    | rewrite count_error_line
    | rewrite (@count_none _ is_check_event (loop_events _ _ _ _ _))
        by by_check_event ];
  cbn [is_error_line is_verdict is_sync is_launch count filter List.length
       Nat.add].

(** Membership of an event of kind [p], which no verification loop
    produces, is membership among the events of kind [p]. *)
Ltac events_with p :=
  repeat match goal with
    | |- context [In ?x (?e :: ?t)] =>
        rewrite (@in_filter_iff p x (e :: t)) by reflexivity;
        cbn [filter p];
        rewrite ?filter_app;
        rewrite ?(@filter_none p is_check_event (loop_events _ _ _ _ _))
          by by_check_event;
        cbn [filter p app]
    end.

(** The events in front of the first kernel launch, and the rest. *)
Ltac before_launch t :=
  lazymatch t with
  | EvCall (cuLaunchKernel _) _ :: _ => constr:(@nil event)
  | ?e :: ?l => let p := before_launch l in constr:(e :: p)
  end.

Ltac from_launch t :=
  lazymatch t with
  | EvCall (cuLaunchKernel _) _ :: _ => constr:(t)
  | ?e :: ?l => from_launch l
  end.

(** The ten values of an index below [N]. *)
Ltac index_cases i Hi :=
  let H := fresh "H" in
  assert (H : i = 0 \/ i = 1 \/ i = 2 \/ i = 3 \/ i = 4 \/ i = 5 \/ i = 6
              \/ i = 7 \/ i = 8 \/ i = 9) by (unfold N in Hi; lia);
  clear Hi;
  repeat (destruct H as [H|H]; [subst i|]); [..|subst i].

(** Deciding a checker on a trace that contains verification loops. *)
Ltac through_loops :=
  cbn;
  repeat first
    [ rewrite forallb_app | rewrite existsb_app
    | rewrite fail_fast_skip by apply loop_events_check
    | rewrite sync_run_skip by apply loop_events_check
    | rewrite allocations_skip by apply loop_events_check ];
  cbn.

(** On a cooperative driver a path that stops early cannot be
    taken. *)
Ltac uncooperative H :=
  let Hall := fresh "Hall" in
  let Hcount := fresh "Hcount" in
  let Hblock := fresh "Hblock" in
  let Huvm := fresh "Huvm" in
  destruct H as (Hall & Hcount & Hblock & Huvm);
  exfalso;
  match goal with
  | E : result _ ?c <> 0 |- _ => apply E, Hall; reflexivity
  | E : grid_dim_x _ _ = None |- _ =>
      apply Hblock, grid_dim_x_none; exact E
  | E : deviceCount _ = 0 |- _ => exact (Hcount E)
  | E : attrValue _ _ = 0 |- _ => exact (Huvm eq_refl E)
  end.

(* ================================================================= *)
(** ** The result check *)

(** C1.  In both programs, a complete run reads [a[i]], [b[i]] and
    [c[i]] for every [i] with [0 <= i < N] (they hold [N - i], [i * i]
    and the device's output); and whenever a run reads the values
    [va], [vb], [vc] at position [i], it prints an error line for
    position [i] exactly when [vc <> va + vb], and that line names
    [i], the expected value [va + vb] and the value [vc] found. *)
Theorem result_check_reports_mismatches v drv :
  (status v drv = Exited 0 ->
   forall i, 0 <= i < N ->
     In (EvLoad buf_a i (addend_a i)) (events v drv)
     /\ In (EvLoad buf_b i (addend_b i)) (events v drv)
     /\ In (EvLoad buf_c i (kernelOutput drv i)) (events v drv))
  /\ (forall i va vb vc,
        In (EvLoad buf_a i va) (events v drv) ->
        In (EvLoad buf_b i vb) (events v drv) ->
        In (EvLoad buf_c i vc) (events v drv) ->
        0 <= i < N
        /\ forall e g,
             In (EvStdout (MsgMismatch i e g)) (events v drv)
             <-> vc <> va + vb /\ e = va + vb /\ g = vc).
Proof.
  both_variants v drv.
  all: split; [intros Hst i Hi | intros i va vb vc].
  all: try discriminate Hst.
  all: check_events_only.
  (* runs that end before the check read nothing *)
  all: try (cbn [In]; tauto).
  all: rewrite ?loop_events_load.
  all: change (0 + Z.of_nat 10) with 10 in *.
  (* a complete run reads every position *)
  all: try (unfold N in Hi; clear -Hi; intuition lia).
  (* what is read is what the arrays hold *)
  all: try (intros [(Hi & ->)|(Hi & ->)] [(_ & ->)|(_ & ->)]
                   [(_ & ->)|(_ & ->)]).
  all: try (intros (Hi & ->) (_ & ->) (_ & ->)).
  all: (split; [unfold N; lia|]); intros e g.
  all: check_events_only.
  all: rewrite ?loop_events_error_line.
  all: change (0 + Z.of_nat 10) with N in *.
  all: rewrite <- (expected_addends Hi); unfold matches.
  all: destruct (Z.eqb_spec (kernelOutput drv i)
                   (expected addend_a addend_b i)) as [Heq|Hne].
  all: try (clear - Hi Hne; intuition congruence).
  all: try (clear - Hi Heq; intuition congruence).
Qed.

(** Witness of C1: with an output buffer of zeros, position 3 is
    reported with expected value 16 and value 0. *)
Lemma result_check_witness :
  In (EvStdout (MsgMismatch 3 16 0)) (events driver_api zero_output_driver)
  /\ In (EvStdout (MsgMismatch 3 16 0))
       (events unified_memory zero_output_driver).
Proof.
  split.
  - refine (proj2 (proj2 (proj2 (result_check_reports_mismatches
                                   driver_api zero_output_driver)
                            3 7 9 0 _ _ _) 16 0) _).
    + vm_compute. tauto.
    + vm_compute. tauto.
    + vm_compute. tauto.
    + lia.
  - refine (proj2 (proj2 (proj2 (result_check_reports_mismatches
                                   unified_memory zero_output_driver)
                            3 7 9 0 _ _ _) 16 0) _).
    + vm_compute. tauto.
    + vm_compute. tauto.
    + vm_compute. tauto.
    + lia.
Defined.

(* ================================================================= *)
(** ** Failure of cuInit *)

(** C9.  If [cuInit] returns a non-success code, then in both programs
    the run consists of the host stores (in [driver_api.cpp], none in
    [unified_memory.cpp]), the line "- Initializing...", the call of
    [cuInit] and the message "Error: no devices supporting CUDA" on
    stderr, and the exit status is non-zero (255).  The device count is
    not queried and the code of [cuInit] is not printed. *)
Theorem cuInit_failure_reported_as_no_device v drv :
  result drv (cuInit 0) <> CUDA_SUCCESS ->
  status v drv = Exited 255
  /\ (exists stores,
        forallb is_store stores = true
        /\ events v drv
           = stores ++ [EvStdout MsgInitializing;
                        EvCall (cuInit 0) (result drv (cuInit 0));
                        EvStderr MsgNoDevices])
  /\ (forall r, ~ In (EvCall cuDeviceGetCount r) (events v drv))
  /\ (forall err file line,
        ~ In (EvStderr (MsgCudaError err file line)) (events v drv)).
Proof.
  intros Hfail. unfold CUDA_SUCCESS in Hfail.
  both_variants v drv; try contradiction.
  - split; [reflexivity|]. split.
    + eexists (_ :: _ :: _ :: _ :: _ :: _ :: _ :: _ :: _ :: _ :: _ :: _
                 :: _ :: _ :: _ :: _ :: _ :: _ :: _ :: _ :: []).
      split; [|reflexivity]. reflexivity.
    + split; intros; intros Hin;
        apply (@in_forallb (fun e => match e with
                                     | EvCall cuDeviceGetCount _
                                     | EvStderr (MsgCudaError _ _ _) => false
                                     | _ => true
                                     end)) in Hin;
        (discriminate || reflexivity).
  - split; [reflexivity|]. split.
    + exists []. split; reflexivity.
    + split; intros; intros Hin;
        apply (@in_forallb (fun e => match e with
                                     | EvCall cuDeviceGetCount _
                                     | EvStderr (MsgCudaError _ _ _) => false
                                     | _ => true
                                     end)) in Hin;
        (discriminate || reflexivity).
Qed.

(** Witness of C9 on a driver whose [cuInit] returns 100. *)
Lemma cuInit_failure_witness :
  status driver_api init_failure_driver = Exited 255
  /\ status unified_memory init_failure_driver = Exited 255.
Proof.
  split.
  - apply (@cuInit_failure_reported_as_no_device driver_api
             init_failure_driver).
    cbn. unfold CUDA_SUCCESS. lia.
  - apply (@cuInit_failure_reported_as_no_device unified_memory
             init_failure_driver).
    cbn. unfold CUDA_SUCCESS. lia.
Defined.

(* ================================================================= *)
(** ** Exit status *)

(** Counterexample to C2.  Every driver call succeeds, every output
    element is wrong (0 instead of the sum), and both programs still
    exit with status 0 and write nothing to stderr. *)
Lemma mismatch_exits_with_status_zero :
  (forall c, result zero_output_driver c = CUDA_SUCCESS)
  /\ (forall i, 0 <= i < N ->
        kernelOutput zero_output_driver i <> addend_a i + addend_b i)
  /\ status driver_api zero_output_driver = Exited 0
  /\ status unified_memory zero_output_driver = Exited 0
  /\ existsb is_stderr (events driver_api zero_output_driver) = false
  /\ existsb is_stderr (events unified_memory zero_output_driver) = false.
Proof.
  split; [reflexivity|]. split.
  - intros i Hi. unfold addend_a, addend_b, N in *.
    change (kernelOutput zero_output_driver i) with 0. nia.
  - repeat split; vm_compute; reflexivity.
Qed.

(** C2, amended.  In both programs:
    - when every checked driver call succeeds, a device is present, the
      block width is not zero and (in [unified_memory.cpp]) unified
      addressing is supported, the exit status is 0, whatever the
      output buffer holds;
    - when a checked driver call fails, a message is written to stderr
      and the exit status is 255. *)
Theorem exit_status_follows_driver_calls v drv :
  ((forall c, checked c = true -> result drv c = CUDA_SUCCESS) ->
   deviceCount drv <> 0 ->
   attrValue drv CU_DEVICE_ATTRIBUTE_MAX_BLOCK_DIM_X <> 0 ->
   (v = unified_memory ->
    attrValue drv CU_DEVICE_ATTRIBUTE_UNIFIED_ADDRESSING <> 0) ->
   status v drv = Exited 0)
  /\ (forall c r,
        In (EvCall c r) (events v drv) ->
        checked c = true -> r <> CUDA_SUCCESS ->
        status v drv = Exited 255
        /\ exists m, In (EvStderr m) (events v drv)).
Proof.
  unfold CUDA_SUCCESS. both_variants v drv; split.
  (* every checked call succeeds *)
  all: try (intros Hall Hcount Hblock Huvm;
            first
              [ reflexivity
              | exfalso;
                match goal with
                | E : result _ ?c <> 0 |- _ => apply E, Hall; reflexivity
                | E : grid_dim_x _ _ = None |- _ =>
                    apply Hblock, grid_dim_x_none; exact E
                | E : deviceCount _ = 0 |- _ => exact (Hcount E)
                | E : attrValue _ _ = 0 |- _ => exact (Huvm eq_refl E)
                end ];
            fail).
  (* some checked call fails: on the paths that end in [exit(-1)] *)
  all: intros c r Hin Hc Hr.
  all: try (split; [reflexivity|];
            apply existsb_stderr; through_loops;
            rewrite ?orb_true_r; reflexivity).
  (* the other paths have no failed checked call *)
  all: exfalso; apply (@in_forallb call_ok) in Hin.
  all: try (cbn in Hin; unfold CUDA_SUCCESS in Hin; rewrite Hc in Hin;
            destruct (Z.eqb_spec r 0); [contradiction|discriminate]).
  all: through_loops.
  all: rewrite ?(@forallb_check_events call_ok (loop_events _ _ _ _ _))
         by by_check_event.
  all: reflexivity.
Qed.

(** Witness of C2 (amended): the wrong output does not change the
    exit status, a failed allocation does. *)
Lemma exit_status_witness :
  status driver_api zero_output_driver = Exited 0
  /\ status unified_memory alloc_failure_driver = Exited 255.
Proof.
  split.
  - apply (proj1 (exit_status_follows_driver_calls driver_api
                    zero_output_driver)).
    + reflexivity.
    + cbn. lia.
    + cbn. lia.
    + discriminate.
  - apply (proj2 (exit_status_follows_driver_calls unified_memory
                    alloc_failure_driver)
             (cuMemAllocHost buf_c 40) 2).
    + vm_compute. tauto.
    + reflexivity.
    + unfold CUDA_SUCCESS. lia.
Defined.

(* ================================================================= *)
(** ** Checking of return codes *)

(** Counterexample to C3.  In [unified_memory.cpp] the call of
    [cuStreamSynchronize] returns a non-success code (719), nothing is
    written to stderr and the program runs to its end with status 0:
    the code of this call is not looked at. *)
Lemma unchecked_synchronize_failure :
  nth_error (events unified_memory sync_failure_driver) 43
  = Some (EvCall (cuStreamSynchronize 0) 719)
  /\ 719 <> CUDA_SUCCESS
  /\ existsb is_stderr (events unified_memory sync_failure_driver) = false
  /\ status unified_memory sync_failure_driver = Exited 0.
Proof.
  split; [vm_compute; reflexivity|].
  split; [discriminate|].
  split; vm_compute; reflexivity.
Qed.

(** C3, amended.  Every driver call written inside
    [checkCudaErrors(...)] has its return code checked: when such a
    call returns a non-success code, the numeric code, the source file
    and the number of the source line of the call are printed to
    stderr as the last thing the process does, and it ends with
    status 255. *)
Theorem wrapped_call_failure_ends_the_run v drv c r :
  In (EvCall c r) (events v drv) ->
  wrapped c = true -> r <> CUDA_SUCCESS ->
  status v drv = Exited 255
  /\ exists pre line,
       source_line v c = Some line
       /\ events v drv
          = pre ++ [EvCall c r; EvStderr (MsgCudaError r (file_of v) line)].
Proof.
  destruct v; unfold status, events, program;
    [ run_paths (DriverApi.main drv) drv
    | run_paths (UnifiedMemory.main drv) drv ]; intros Hin Hw Hr.
  (* paths that end in [exit(-1)] *)
  all: try (split; [reflexivity|];
            eapply fail_fast_sound; [ | exact Hin | exact Hw | exact Hr];
            through_loops; rewrite ?Z.eqb_refl;
            try match goal with
              | |- context [negb ?b] => destruct b
              end;
            reflexivity).
  (* the other paths have no failed checked call *)
  all: assert (Hc : checked c = true)
         by (destruct c; (discriminate || reflexivity)).
  all: exfalso; apply (@in_forallb call_ok) in Hin.
  all: try (cbn in Hin; unfold CUDA_SUCCESS in Hin, Hr; rewrite Hc in Hin;
            destruct (Z.eqb_spec r 0); [contradiction|discriminate]).
  all: through_loops.
  all: rewrite ?(@forallb_check_events call_ok (loop_events _ _ _ _ _))
         by by_check_event.
  all: reflexivity.
Qed.

(** Witness of C3 (amended): the third allocation fails with code 2;
    the report names line 105 of [driver_api.cpp] and line 116 of
    [unified_memory.cpp]. *)
Lemma wrapped_call_failure_witness :
  (status driver_api alloc_failure_driver = Exited 255
   /\ exists pre,
        events driver_api alloc_failure_driver
        = pre ++ [EvCall (cuMemAlloc buf_c 40) 2;
                  EvStderr (MsgCudaError 2 "driver_api.cpp" 105)])
  /\ (status unified_memory alloc_failure_driver = Exited 255
      /\ exists pre,
           events unified_memory alloc_failure_driver
           = pre ++ [EvCall (cuMemAllocHost buf_c 40) 2;
                     EvStderr (MsgCudaError 2 "unified_memory.cpp" 116)]).
Proof.
  split.
  - destruct (@wrapped_call_failure_ends_the_run driver_api
                alloc_failure_driver (cuMemAlloc buf_c 40) 2)
      as (Hs & pre & line & Hl & Heq).
    + vm_compute. tauto.
    + reflexivity.
    + unfold CUDA_SUCCESS. lia.
    + split; [exact Hs|]. exists pre.
      injection Hl as <-. exact Heq.
  - destruct (@wrapped_call_failure_ends_the_run unified_memory
                alloc_failure_driver (cuMemAllocHost buf_c 40) 2)
      as (Hs & pre & line & Hl & Heq).
    + vm_compute. tauto.
    + reflexivity.
    + unfold CUDA_SUCCESS. lia.
    + split; [exact Hs|]. exists pre.
      injection Hl as <-. exact Heq.
Defined.

(* ================================================================= *)
(** ** Launch dimensions *)




(* ================================================================= *)
(** ** The doubled verification loop of unified_memory.cpp *)

(** C4.  In a complete run of [unified_memory.cpp] the verification
    loop over [0 .. N-1] runs twice in a row and is followed by one
    verdict: the error line of every position whose output differs from
    the sum is printed exactly twice (and no error line is printed for
    the other positions), and exactly one of "All checks complete" and
    "Result incorrect" is printed. *)
Theorem verification_loop_runs_twice drv :
  status unified_memory drv = Exited 0 ->
  (exists pre verdict post,
      events unified_memory drv
      = pre ++ one_pass drv ++ one_pass drv ++ EvStdout verdict :: post
      /\ verdict = (if all_match addend_a addend_b (kernelOutput drv) 0
                         (Z.to_nat N)
                    then MsgAllChecksComplete else MsgResultIncorrect))
  /\ (forall i, 0 <= i < N ->
        count (is_error_line i) (events unified_memory drv)
        = if kernelOutput drv i =? addend_a i + addend_b i
          then 0%nat else 2%nat)
  /\ count is_verdict (events unified_memory drv) = 1%nat.
Proof.
  unfold status, events, program, one_pass.
  change (Z.to_nat N) with 10%nat.
  run_paths (UnifiedMemory.main drv) drv; intros Hst; try discriminate Hst.
  all: split; [|split; [intros i Hi|]].
  (* the verdict *)
  all: try (count_through_loops; reflexivity).
  (* the two passes *)
  all: try (match goal with
            | |- exists _ _ _, ?t = _ /\ _ =>
                let p := prefix_of t in
                exists p; eexists; eexists; split; reflexivity
            end).
  (* the error lines *)
  all: count_through_loops.
  all: rewrite <- (expected_addends Hi); unfold matches.
  all: unfold N in Hi.
  all: destruct (Z.leb_spec 0 i); [|lia].
  all: destruct (Z.ltb_spec i (0 + Z.of_nat 10)); [|lia].
  all: destruct (kernelOutput drv i =? expected addend_a addend_b i);
    reflexivity.
Qed.

(** Witness of C4: with an output buffer of zeros the error line of
    position 0 is printed twice and there is one verdict. *)
Lemma verification_loop_witness :
  count (is_error_line 0) (events unified_memory zero_output_driver) = 2%nat
  /\ count is_verdict (events unified_memory zero_output_driver) = 1%nat.
Proof.
  assert (H : status unified_memory zero_output_driver = Exited 0)
    by (vm_compute; reflexivity).
  split.
  - refine (proj1 (proj2 (@verification_loop_runs_twice
                            zero_output_driver H)) 0 _).
    unfold N. lia.
  - exact (proj2 (proj2 (@verification_loop_runs_twice
                           zero_output_driver H))).
Defined.

(* ================================================================= *)
(** ** Order of the steps *)

(** Counterexample to C5.  In [driver_api.cpp] the first event of a
    run is a store into the host array [a], twenty-one events before
    the call of [cuInit]: populating the inputs comes before the
    initialization of the handles, so the run does not follow the order
    the claim gives. *)
Lemma driver_api_populates_before_initializing :
  nth_error (events driver_api working_driver) 0
  = Some (EvStore buf_a 0 10)
  /\ nth_error (events driver_api working_driver) 21
     = Some (EvCall (cuInit 0) CUDA_SUCCESS)
  /\ ~ follows spec_rank (events driver_api working_driver).
Proof.
  split; [vm_compute; reflexivity|].
  split; [vm_compute; reflexivity|].
  intros H.
  assert (Hle : (spec_rank Populate <= spec_rank Initialize)%nat).
  { apply (H [] (EvStore buf_a 0 10)
             (firstn 20 (tl (events driver_api working_driver)))
             (EvCall (cuInit 0) CUDA_SUCCESS)
             (skipn 22 (events driver_api working_driver)));
      vm_compute; reflexivity. }
  cbn in Hle. lia.
Qed.

(** C5, amended.  Every run of [unified_memory.cpp] goes through the
    steps in the order initialize, allocate, populate, launch, inspect,
    release, and a complete run goes through exactly these six.  Every
    run of [driver_api.cpp] goes through the steps in the order
    populate (host arrays), initialize, allocate, upload (copies to the
    device), launch, inspect, release, and a complete run goes through
    exactly these seven. *)
Theorem steps_of_each_program drv :
  (follows spec_rank (events unified_memory drv)
   /\ (status unified_memory drv = Exited 0 ->
       phases (events unified_memory drv)
       = [Initialize; Allocate; Populate; Launch; Inspect; Release]))
  /\ (follows driver_api_rank (events driver_api drv)
      /\ (status driver_api drv = Exited 0 ->
          phases (events driver_api drv)
          = [Populate; Initialize; Allocate; Upload; Launch; Inspect;
             Release])).
Proof.
  split.
  - unfold status, events, program.
    run_paths (UnifiedMemory.main drv) drv.
    all: split; [apply (@ordered_from_follows _ _ 0%nat)
                | intros Hst; try discriminate Hst].
    all: try (cbn; reflexivity).
    all: try (unfold phases; cbn; rewrite !(phases_from_loop _ _ _ _ 9);
              cbn; reflexivity).
    all: cbn.
    all: apply (@ordered_from_segment spec_rank (spec_rank Inspect));
      [cbn; lia | apply loop_events_inspect | ].
    all: apply (@ordered_from_segment spec_rank (spec_rank Inspect));
      [cbn; lia | apply loop_events_inspect | reflexivity].
  - unfold status, events, program.
    run_paths (DriverApi.main drv) drv.
    all: split; [apply (@ordered_from_follows _ _ 0%nat)
                | intros Hst; try discriminate Hst].
    all: try (cbn; reflexivity).
    all: try (unfold phases; cbn; rewrite !(phases_from_loop _ _ _ _ 9);
              cbn; reflexivity).
    all: cbn.
    all: apply (@ordered_from_segment driver_api_rank
                  (driver_api_rank Inspect));
      [cbn; lia | apply loop_events_inspect | reflexivity].
Qed.

(** Witness of C5 (amended) on the working driver. *)
Lemma steps_witness :
  phases (events unified_memory working_driver)
  = [Initialize; Allocate; Populate; Launch; Inspect; Release]
  /\ phases (events driver_api working_driver)
     = [Populate; Initialize; Allocate; Upload; Launch; Inspect; Release].
Proof.
  split.
  - apply (proj2 (proj1 (steps_of_each_program working_driver))).
    vm_compute. reflexivity.
  - apply (proj2 (proj2 (steps_of_each_program working_driver))).
    vm_compute. reflexivity.
Defined.

(* ================================================================= *)
(** ** Synchronization in unified_memory.cpp *)

(** C7.  A run of [unified_memory.cpp] launches at most once and
    synchronizes at most once; whenever the host reads the output
    array, the read comes after a [cuStreamSynchronize] on stream 0,
    which comes after the kernel launch, and there is exactly one
    synchronize and exactly one launch in the run. *)
Theorem synchronize_before_reading_output drv :
  (count is_sync (events unified_memory drv) <= 1)%nat
  /\ (count is_launch (events unified_memory drv) <= 1)%nat
  /\ forall l1 i v l2,
       events unified_memory drv = l1 ++ EvLoad buf_c i v :: l2 ->
       (exists p cfg rl m rs n,
           l1 = p ++ EvCall (cuLaunchKernel cfg) rl
                  :: m ++ EvCall (cuStreamSynchronize 0) rs :: n)
       /\ count is_sync (events unified_memory drv) = 1%nat
       /\ count is_launch (events unified_memory drv) = 1%nat.
Proof.
  assert (H : exists q, sync_run Idle (events unified_memory drv) = Some q).
  { unfold events, program.
    run_paths (UnifiedMemory.main drv) drv.
    all: eexists; through_loops; reflexivity. }
  destruct H as [q H]. exact (@sync_protocol_sound _ q H).
Qed.

(** Witness of C7: the first read of the output on the working driver
    is event 45 of the run. *)
Lemma synchronize_witness :
  count is_sync (events unified_memory working_driver) = 1%nat
  /\ count is_launch (events unified_memory working_driver) = 1%nat.
Proof.
  refine (proj2 (proj2 (proj2 (synchronize_before_reading_output
                                 working_driver))
                   (firstn 45 (events unified_memory working_driver))
                   0 10
                   (skipn 46 (events unified_memory working_driver)) _)).
  vm_compute. reflexivity.
Defined.

(* ================================================================= *)
(** ** The bound N *)



(* ================================================================= *)
(** ** The addends *)

(** C10.  In both programs, when the kernel is launched the host has
    stored [N - i] into [a[i]] and [i * i] into [b[i]] for every [i]
    with [0 <= i < N]; a run stores nothing else into the arrays; and
    every error line of a position [i] names [(N - i) + i * i] as the
    expected value.  On a cooperative driver either program does
    launch the kernel, after these stores. *)
Theorem addends_populated_before_launch v drv :
  (forall pre cfg r post,
     events v drv = pre ++ EvCall (cuLaunchKernel cfg) r :: post ->
     forall i, 0 <= i < N ->
       In (EvStore buf_a i (N - i)) pre /\ In (EvStore buf_b i (i * i)) pre)
  /\ (forall b i x,
        In (EvStore b i x) (events v drv) ->
        0 <= i < N
        /\ (b = buf_a /\ x = N - i \/ b = buf_b /\ x = i * i))
  /\ (forall i e g,
        In (EvStdout (MsgMismatch i e g)) (events v drv) ->
        e = (N - i) + i * i)
  /\ (cooperative v drv ->
      exists pre cfg post,
        events v drv
        = pre ++ EvCall (cuLaunchKernel cfg) CUDA_SUCCESS :: post
        /\ forall i, 0 <= i < N ->
             In (EvStore buf_a i (N - i)) pre
             /\ In (EvStore buf_b i (i * i)) pre).
Proof.
  unfold cooperative, CUDA_SUCCESS. both_variants v drv.
  all: split; [intros pre cfg r post Heq i Hi
              | split; [intros b i x
                       | split; [intros i e g | intros Hco] ] ].
  (* on a cooperative driver: runs that stop early *)
  all: try (uncooperative Hco; fail).
  (* on a cooperative driver: the launch and what precedes it *)
  all: try (match goal with
            | |- exists _ _ _, ?t = _ /\ _ =>
                let p := before_launch t in
                let s := from_launch t in
                lazymatch s with
                | EvCall (cuLaunchKernel ?cfg) _ :: ?post =>
                    exists p, cfg, post
                end
            end;
            split; [reflexivity|];
            intros i Hi; split; index_cases i Hi; cbn [In]; tauto).
  (* the expected values *)
  all: try (check_events_only; try (cbn [In]; tauto);
            rewrite ?loop_events_error_line;
            change (0 + Z.of_nat 10) with N;
            intros H;
            assert (Hi : 0 <= i < N /\ e = expected addend_a addend_b i)
              by (clear -H; tauto);
            destruct Hi as [Hi ->]; exact (expected_addends Hi)).
  (* the stores *)
  all: try (events_with is_store; cbn [In]; unfold N;
            intros H;
            repeat (destruct H as [H|H];
                    [injection H as <- <- <-; split; [lia|];
                     (left; split; reflexivity)
                     || (right; split; reflexivity)|]);
            contradiction).
  (* before the launch *)
  all: assert (Hin : In (EvCall (cuLaunchKernel cfg) r)
                       (pre ++ EvCall (cuLaunchKernel cfg) r :: post))
         by apply in_elt.
  all: rewrite <- Heq in Hin; revert Hin.
  all: events_with is_launch; try (cbn [In]; tauto); intros _.
  all: match type of Heq with
       | ?t = _ =>
           let p := before_launch t in
           let s := from_launch t in
           apply (@prefix_before_first is_launch p s) in Heq;
           [ destruct Heq as (m & -> & _) | reflexivity | reflexivity ]
       end.
  all: rewrite !in_app_iff; split; left.
  all: index_cases i Hi; cbn [In]; tauto.
Qed.

(** Witness of C10: on the working driver the launch of
    [driver_api.cpp] is event 42 of the run, and
    [unified_memory.cpp] launches after the stores as well. *)
Lemma addends_witness :
  (In (EvStore buf_a 3 (N - 3))
     (firstn 42 (events driver_api working_driver))
   /\ In (EvStore buf_b 3 (3 * 3))
        (firstn 42 (events driver_api working_driver)))
  /\ exists pre cfg post,
       events unified_memory working_driver
       = pre ++ EvCall (cuLaunchKernel cfg) CUDA_SUCCESS :: post
       /\ In (EvStore buf_a 3 (N - 3)) pre
       /\ In (EvStore buf_b 3 (3 * 3)) pre.
Proof.
  split.
  - refine (proj1 (addends_populated_before_launch driver_api
                     working_driver)
              (firstn 42 (events driver_api working_driver))
              (launch_config 1 1024 N) CUDA_SUCCESS
              (skipn 43 (events driver_api working_driver)) _ 3 _).
    + vm_compute. reflexivity.
    + unfold N. lia.
  - destruct (proj2 (proj2 (proj2 (addends_populated_before_launch
                                     unified_memory working_driver))))
      as (pre & cfg & post & Heq & Hi).
    + unfold cooperative. split; [|split; [|split]].
      * intros c _. reflexivity.
      * cbn. lia.
      * cbn. lia.
      * intros _. cbn. lia.
    + exists pre, cfg, post. split; [exact Heq|].
      apply (Hi 3). unfold N. lia.
Defined.

(* ================================================================= *)
(** * Further properties of the two programs *)

(* ================================================================= *)
(** ** One event before another: facts *)

Lemma guarded_seen p q t : guarded p q true t = true.
Proof.
  induction t as [|e t IH]; [reflexivity|].
  cbn. now rewrite orb_true_r, IH.
Qed.

Lemma guarded_sound p q t : forall seen,
  guarded p q seen t = true ->
  forall l1 e l2, t = l1 ++ e :: l2 -> q e = true ->
    seen = true \/ exists x, In x l1 /\ p x = true.
Proof.
  induction t as [|x t IH]; intros seen H l1 e l2 Heq Hq.
  - destruct l1; discriminate.
  - cbn in H. apply andb_true_iff in H. destruct H as [Hx H].
    destruct l1 as [|y l1]; cbn in Heq; injection Heq as -> ->.
    + rewrite Hq in Hx. cbn in Hx. now left.
    + destruct (IH _ H _ _ _ eq_refl Hq) as [Hs|(z & Hz & Hp)].
      * apply orb_true_iff in Hs. destruct Hs as [Hs|Hs]; [now left|].
        right. exists y. cbn. auto.
      * right. exists z. cbn. auto.
Qed.

Lemma closed_by_skip p q l : forall t,
  forallb (fun e => negb (p e)) l = true ->
  closed_by p q (l ++ t) = closed_by p q t.
Proof.
  induction l as [|e l IH]; intros t H; [reflexivity|].
  cbn in H. apply andb_true_iff in H. destruct H as [He H].
  apply negb_true_iff in He. cbn. rewrite He. cbn. now apply IH.
Qed.

Lemma closed_by_sound p q t :
  closed_by p q t = true ->
  forall l1 e l2 x, t = l1 ++ e :: l2 -> p e = true -> In x l2 ->
    q x = false.
Proof.
  induction t as [|y t IH]; intros H l1 e l2 x Heq Hp Hx.
  - destruct l1; discriminate.
  - cbn in H. apply andb_true_iff in H. destruct H as [Hy H].
    destruct l1 as [|z l1]; cbn in Heq; injection Heq as -> ->.
    + rewrite Hp in Hy.
      apply negb_true_iff.
      exact (proj1 (forallb_forall _ _) Hy x Hx).
    + exact (IH H _ _ _ _ eq_refl Hp Hx).
Qed.

Lemma guarded_before p q t :
  guarded p q false t = true ->
  forall l1 e l2, t = l1 ++ e :: l2 -> q e = true ->
    exists x, In x l1 /\ p x = true.
Proof.
  intros H l1 e l2 Heq Hq.
  destruct (@guarded_sound p q t false H l1 e l2 Heq Hq) as [Hs|Hx];
    [discriminate Hs|exact Hx].
Qed.

(** Read the other way round: nothing of kind [p] in front of an
    event of kind [q]. *)
Lemma closed_by_before p q t :
  closed_by p q t = true ->
  forall l1 e l2 x, t = l1 ++ e :: l2 -> q e = true -> In x l1 ->
    p x = false.
Proof.
  intros H l1 e l2 x Heq Hq Hx.
  destruct (in_split _ _ Hx) as (m1 & m2 & ->).
  destruct (p x) eqn:Hp; [|reflexivity].
  rewrite <- app_assoc in Heq. cbn [app] in Heq.
  assert (Hf : q e = false).
  { apply (@closed_by_sound p q t H _ _ _ e Heq Hp).
    apply in_or_app. right. left. reflexivity. }
  rewrite Hq in Hf. discriminate Hf.
Qed.

(* ================================================================= *)
(** ** Stores: facts *)

Lemma update_spec v : forall l i,
  (i < List.length l)%nat ->
  exists l',
    update l i v = Some l'
    /\ List.length l' = List.length l
    /\ nth_error l' i = Some (Some v)
    /\ forall j, j <> i -> nth_error l' j = nth_error l j.
Proof.
  induction l as [|h t IH]; intros i Hi; cbn in Hi; [lia|].
  destruct i as [|i].
  - exists (Some v :: t). cbn. repeat split; auto.
    intros [|j] Hj; [contradiction|reflexivity].
  - destruct (IH i) as (t' & Hu & Hl & Hn & Ho); [lia|].
    exists (h :: t'). cbn. rewrite Hu. repeat split; auto.
    intros [|j] Hj; [reflexivity|]. cbn. apply Ho. congruence.
Qed.

(** One round of the initialisation loop. *)
Lemma fill_round n i s :
  0 <= i < n -> n <= max_fill ->
  (Z.to_nat i < List.length (mem s buf_a))%nat ->
  (Z.to_nat i < List.length (mem s buf_b))%nat ->
  exists s',
    (store buf_a i (Int.sub n i) ;; store buf_b i (Int.mul i i)) s
    = (Ret tt, s')
    /\ log s' = log s ++ [EvStore buf_a i (n - i); EvStore buf_b i (i * i)]
    /\ mem s' buf_c = mem s buf_c
    /\ List.length (mem s' buf_a) = List.length (mem s buf_a)
    /\ List.length (mem s' buf_b) = List.length (mem s buf_b)
    /\ nth_error (mem s' buf_a) (Z.to_nat i) = Some (Some (n - i))
    /\ nth_error (mem s' buf_b) (Z.to_nat i) = Some (Some (i * i))
    /\ forall j, j <> Z.to_nat i ->
         nth_error (mem s' buf_a) j = nth_error (mem s buf_a) j
         /\ nth_error (mem s' buf_b) j = nth_error (mem s buf_b) j.
Proof.
  unfold max_fill. intros Hi Hn Ha Hb.
  assert (Hsub : Int.sub n i = n - i).
  { apply wrap_in_range.
    unfold Int.in_range, Int.INT_MIN, Int.INT_MAX. lia. }
  assert (Hmul : Int.mul i i = i * i).
  { apply wrap_in_range.
    unfold Int.in_range, Int.INT_MIN, Int.INT_MAX. nia. }
  rewrite Hsub, Hmul.
  destruct (@update_spec (n - i) _ _ Ha) as (la & Ua & La & Na & Oa).
  destruct (@update_spec (i * i) _ _ Hb) as (lb & Ub & Lb & Nb & Ob).
  unfold bind, store.
  destruct (Z.ltb_spec i 0) as [Hneg|_]; [lia|].
  cbn [mem] in Ua, Ub, La, Lb, Na, Nb, Oa, Ob |- *.
  rewrite Ua. cbn [mem emit set_mem mem_a mem_b mem_c]. rewrite Ub.
  eexists. split; [reflexivity|].
  cbn [mem emit set_mem mem_a mem_b mem_c log].
  rewrite <- app_assoc. repeat split; auto.
Qed.

Lemma fill_from n k : forall i s,
  0 <= i -> i + Z.of_nat k <= n -> n <= max_fill ->
  (Z.to_nat n <= List.length (mem s buf_a))%nat ->
  (Z.to_nat n <= List.length (mem s buf_b))%nat ->
  exists s',
    for_from i k
      (fun i => store buf_a i (Int.sub n i) ;; store buf_b i (Int.mul i i))
      s = (Ret tt, s')
    /\ log s' = log s ++ fill_events n i k
    /\ mem s' buf_c = mem s buf_c
    /\ List.length (mem s' buf_a) = List.length (mem s buf_a)
    /\ List.length (mem s' buf_b) = List.length (mem s buf_b)
    /\ (forall j, i <= j < i + Z.of_nat k ->
          nth_error (mem s' buf_a) (Z.to_nat j) = Some (Some (n - j))
          /\ nth_error (mem s' buf_b) (Z.to_nat j) = Some (Some (j * j)))
    /\ (forall j, 0 <= j < i ->
          nth_error (mem s' buf_a) (Z.to_nat j)
          = nth_error (mem s buf_a) (Z.to_nat j)
          /\ nth_error (mem s' buf_b) (Z.to_nat j)
             = nth_error (mem s buf_b) (Z.to_nat j)).
Proof.
  induction k as [|k IH]; intros i s Hi Hk Hn Ha Hb.
  - exists s. cbn. rewrite app_nil_r. repeat split; auto; lia.
  - destruct (@fill_round n i s) as
      (s1 & E1 & L1 & C1 & A1 & B1 & Va & Vb & O1); try lia.
    destruct (IH (i + 1) s1) as
      (s2 & E2 & L2 & C2 & A2 & B2 & V2 & O2); try lia.
    exists s2. cbn [for_from fill_events].
    unfold bind at 1. rewrite E1, E2.
    split; [reflexivity|].
    split; [rewrite L2, L1, <- app_assoc; reflexivity|].
    split; [congruence|]. split; [congruence|]. split; [congruence|].
    split.
    + intros j Hj. destruct (Z.eq_dec j i) as [->|Hne].
      * destruct (O2 i) as [Oa Ob]; [lia|]. rewrite Oa, Ob. auto.
      * apply V2. lia.
    + intros j Hj. destruct (O2 j) as [Oa Ob]; [lia|].
      destruct (O1 (Z.to_nat j)) as [Pa Pb]; [lia|].
      rewrite Oa, Ob. auto.
Qed.

(* ================================================================= *)
(** ** The verification loops: more facts *)

Lemma all_match_spec a b c k : forall i,
  all_match a b c i k = true
  <-> forall j, i <= j < i + Z.of_nat k -> matches a b c j = true.
Proof.
  induction k as [|k IH]; intros i.
  - split; [intros _ j Hj; lia|reflexivity].
  - change (all_match a b c i (S k))
      with (matches a b c i && all_match a b c (i + 1) k).
    rewrite andb_true_iff, IH. split.
    + intros [H0 H] j Hj.
      destruct (Z.eq_dec j i) as [->|Hne]; [exact H0|apply H; lia].
    + intros H. split; [apply H; lia|intros j Hj; apply H; lia].
Qed.

Lemma stdout_messages_app l1 l2 :
  stdout_messages (l1 ++ l2) = stdout_messages l1 ++ stdout_messages l2.
Proof.
  induction l1 as [|[c r|m|m|b i x|b i x] l1 IH]; cbn; congruence.
Qed.

(** A loop over matching positions prints nothing. *)
Lemma loop_events_quiet a b c k : forall i,
  all_match a b c i k = true ->
  stdout_messages (loop_events a b c i k) = [].
Proof.
  induction k as [|k IH]; intros i H; [reflexivity|].
  change (all_match a b c i (S k))
    with (matches a b c i && all_match a b c (i + 1) k) in H.
  apply andb_true_iff in H. destruct H as [H0 H].
  change (loop_events a b c i (S k))
    with (position_events a b c i ++ loop_events a b c (i + 1) k).
  rewrite stdout_messages_app, (IH _ H).
  unfold position_events. rewrite H0. reflexivity.
Qed.

(** The sums of the addends the programs store do not overflow. *)
Lemma all_match_addends c :
  (forall i, 0 <= i < N -> c i = addend_a i + addend_b i) ->
  all_match addend_a addend_b c 0 10 = true.
Proof.
  intros H. apply all_match_spec. intros j Hj.
  unfold matches. apply Z.eqb_eq.
  rewrite expected_addends by (unfold N; lia).
  apply H. unfold N. lia.
Qed.

(* ================================================================= *)
(** ** More path tactics *)

(** Counting events of a kind no verification loop produces. *)
Ltac count_of_kind :=
  repeat first
    [ rewrite count_cons | rewrite count_app
    | rewrite (@count_none _ is_check_event (loop_events _ _ _ _ _))
        by by_check_event ];
  cbn.

(** A trace without its last event. *)
Ltac all_but_last t :=
  lazymatch t with
  | [?e] => constr:(@nil event)
  | ?e :: ?l => let p := all_but_last l in constr:(e :: p)
  | ?l1 ++ ?l2 => let p := all_but_last l2 in constr:(l1 ++ p)
  end.

Ltac same_trace :=
  cbn [app]; repeat (rewrite <- app_assoc; cbn [app]); reflexivity.

(** A trace that is a literal list, without its last [k] events. *)
Ltac without_last k t :=
  let n := eval cbv in (List.length t - k)%nat in
  constr:(firstn n t).

(** The equations left by a membership in a literal list. *)
Ltac member_cases Hin :=
  cbn [In] in Hin;
  repeat (destruct Hin as [Hin|Hin];
          [first [discriminate Hin | injection Hin; intros; subst] |]);
  try contradiction.

(** Deciding [guarded] and [closed_by] on a path. *)
Ltac decide_guarded :=
  cbn; rewrite ?guarded_seen; reflexivity.

Ltac decide_closed :=
  cbn;
  repeat (rewrite closed_by_skip
            by (apply forallb_check_events;
                [by_check_event|apply loop_events_check]);
          cbn);
  reflexivity.

(** The events in front of the third allocation of
    [unified_memory.cpp], and those behind it. *)
Ltac to_third_allocation t :=
  lazymatch t with
  | EvCall (cuMemAllocHost buf_c _) _ :: _ => constr:(@nil event)
  | ?e :: ?l => let p := to_third_allocation l in constr:(e :: p)
  end.

Ltac from_third_allocation t :=
  lazymatch t with
  | EvCall (cuMemAllocHost buf_c _) _ :: ?l => constr:(l)
  | _ :: ?l => from_third_allocation l
  end.

Ltac drop_events n t :=
  lazymatch n with
  | O => constr:(t)
  | S ?n' => lazymatch t with _ :: ?l => drop_events n' l end
  end.

(* ================================================================= *)
(** ** Failures while the context is brought up *)

(** X1.  In both programs, when [cuCtxCreate], [cuModuleLoad] or
    [cuModuleGetFunction] returns a non-success code, [initCUDA]
    prints the line that belongs to that call to stderr, calls
    [cuCtxDestroy] (also when it is the creation of the context that
    failed) and the process ends with status 255; these three events
    are the last of the run. *)
Theorem bringup_failure_destroys_context v drv c r m :
  In (EvCall c r) (events v drv) ->
  bringup_message c = Some m -> r <> CUDA_SUCCESS ->
  status v drv = Exited 255
  /\ exists pre d,
       events v drv
       = pre ++ [EvCall c r; EvStderr m; EvCall cuCtxDestroy d].
Proof.
  unfold CUDA_SUCCESS. both_variants v drv.
  all: destruct c; try (intros _ Hm; discriminate Hm).
  all: events_with is_bringup.
  all: intros Hin Hm Hr; member_cases Hin.
  all: try (exfalso; apply Hr; reflexivity).
  all: cbn in Hm; injection Hm as <-.
  all: split; [reflexivity|].
  all: match goal with
       | |- exists _ _, ?t = _ =>
           let p := without_last 3%nat t in
           exists p; eexists; reflexivity
       end.
Qed.

(** Witness of X1: the module file cannot be loaded. *)
Lemma bringup_failure_witness :
  status unified_memory module_failure_driver = Exited 255
  /\ exists pre d,
       events unified_memory module_failure_driver
       = pre ++ [EvCall (cuModuleLoad "kernel.ptx") 301;
                 EvStderr (MsgModuleLoadError "kernel.ptx");
                 EvCall cuCtxDestroy d].
Proof.
  apply (@bringup_failure_destroys_context unified_memory
           module_failure_driver (cuModuleLoad "kernel.ptx") 301).
  - vm_compute. tauto.
  - reflexivity.
  - unfold CUDA_SUCCESS. lia.
Defined.

(** X2.  [unified_memory.cpp] asks the device for unified addressing
    and goes on only if the attribute is non-zero: when the query
    succeeds and stores 0, the run ends with status 255 right after
    the line on stderr, and no context is created or destroyed.  A
    context is created only on a device whose attribute is non-zero.
    [driver_api.cpp] never asks. *)
Theorem unified_addressing_required drv :
  (attrValue drv CU_DEVICE_ATTRIBUTE_UNIFIED_ADDRESSING = 0 ->
   In (EvCall (cuDeviceGetAttribute CU_DEVICE_ATTRIBUTE_UNIFIED_ADDRESSING)
         CUDA_SUCCESS) (events unified_memory drv) ->
   status unified_memory drv = Exited 255
   /\ (exists pre,
         events unified_memory drv
         = pre ++ [EvCall (cuDeviceGetAttribute
                             CU_DEVICE_ATTRIBUTE_UNIFIED_ADDRESSING)
                     CUDA_SUCCESS;
                   EvStderr MsgUvmNotSupported])
   /\ forall e, In e (events unified_memory drv) ->
        is_bringup e = false /\ is_ctx_destroy e = false)
  /\ (forall flags r,
        In (EvCall (cuCtxCreate flags) r) (events unified_memory drv) ->
        attrValue drv CU_DEVICE_ATTRIBUTE_UNIFIED_ADDRESSING <> 0)
  /\ (forall r,
        ~ In (EvCall (cuDeviceGetAttribute
                        CU_DEVICE_ATTRIBUTE_UNIFIED_ADDRESSING) r)
            (events driver_api drv)).
Proof.
  unfold CUDA_SUCCESS. rewrite <- and_assoc. split.
  - unfold status, events, program.
    run_paths (UnifiedMemory.main drv) drv; split.
    (* the refusal *)
    all: try (intros H0; events_with is_uva_query;
              intros Hin; member_cases Hin; try contradiction; fail).
    all: try (intros flags r; events_with is_ctx_create;
              intros Hin; member_cases Hin; assumption).
    all: intros H0 _; split; [reflexivity|]; split.
    all: try (intros e He; cbn [In] in He;
              repeat (destruct He as [<-|He]; [split; reflexivity|]);
              contradiction).
    all: match goal with
         | |- exists _, ?t = _ =>
             let p := without_last 2%nat t in
             exists p; reflexivity
         end.
  - unfold status, events, program.
    run_paths (DriverApi.main drv) drv.
    all: intros r; events_with is_uva_query.
    all: intros Hin; member_cases Hin.
Qed.

(** A device without unified addressing meets the premises of X2. *)
Lemma unified_addressing_witness :
  status unified_memory no_uva_driver = Exited 255
  /\ stderr_text (events unified_memory no_uva_driver)
     = Printf.render MsgUvmNotSupported.
Proof.
  destruct (@unified_addressing_required no_uva_driver) as [H _].
  destruct H as (Hs & _ & _).
  - reflexivity.
  - vm_compute. tauto.
  - split; [exact Hs|reflexivity].
Defined.

(** X3.  When [cuInit] and [cuDeviceGetCount] succeed and the count
    is 0, both programs print the no-device line to stderr and end
    with status 255; [cuInit] and [cuDeviceGetCount] are the only
    driver calls of the run. *)
Theorem no_device_ends_the_run v drv :
  result drv (cuInit 0) = CUDA_SUCCESS ->
  result drv cuDeviceGetCount = CUDA_SUCCESS ->
  deviceCount drv = 0 ->
  status v drv = Exited 255
  /\ (exists stores,
        forallb is_store stores = true
        /\ events v drv
           = stores ++ [EvStdout MsgInitializing;
                        EvCall (cuInit 0) CUDA_SUCCESS;
                        EvCall cuDeviceGetCount CUDA_SUCCESS;
                        EvStderr MsgNoDevices])
  /\ count is_driver_call (events v drv) = 2%nat.
Proof.
  unfold CUDA_SUCCESS. both_variants v drv.
  all: intros H1 H2 H3; try contradiction.
  all: split; [reflexivity|]; split; [|reflexivity].
  all: match goal with
       | |- exists _, _ /\ ?t = _ =>
           let p := without_last 4%nat t in
           exists p; split; reflexivity
       end.
Qed.

(** Witness of X3: a driver that counts zero devices. *)
Lemma no_device_witness :
  status driver_api no_device_driver = Exited 255
  /\ count is_driver_call (events driver_api no_device_driver) = 2%nat.
Proof.
  destruct (@no_device_ends_the_run driver_api no_device_driver)
    as (Hs & _ & Hc); try reflexivity.
  split; [exact Hs|exact Hc].
Defined.

(* ================================================================= *)
(** ** How a run can end *)

(** X4.  A run ends with status 0, with status 255, or in the
    division by zero of the grid computation, and in no other way: no
    array is read or written out of bounds or before it has a value.
    The division traps exactly when the block width query succeeds
    and stores 0; the query is then the last event, and no kernel is
    launched. *)
Theorem crash_only_on_zero_block_width v drv :
  (status v drv = Exited 0 \/ status v drv = Exited 255
   \/ status v drv = Crashed)
  /\ (status v drv = Crashed
      <-> attrValue drv CU_DEVICE_ATTRIBUTE_MAX_BLOCK_DIM_X = 0
          /\ In (EvCall (cuDeviceGetAttribute
                           CU_DEVICE_ATTRIBUTE_MAX_BLOCK_DIM_X)
                   CUDA_SUCCESS) (events v drv))
  /\ (status v drv = Crashed ->
      (exists pre,
          events v drv
          = pre ++ [EvStdout MsgRunning;
                    EvCall (cuDeviceGetAttribute
                              CU_DEVICE_ATTRIBUTE_MAX_BLOCK_DIM_X)
                      CUDA_SUCCESS])
      /\ count is_launch (events v drv) = 0%nat).
Proof.
  unfold CUDA_SUCCESS. both_variants v drv.
  all: split; [tauto|]; split.
  (* no crash on this path *)
  all: try (intros H; discriminate H).
  all: try (split; [intros H; discriminate H|];
            events_with is_block_query;
            intros [H0 Hin]; member_cases Hin; try contradiction;
            match goal with
            | E : grid_dim_x _ _ = Some _ |- _ =>
                rewrite H0 in E; vm_compute in E; discriminate E
            end).
  (* the crash *)
  all: try (split; [intros _|reflexivity]; split;
            [ apply grid_dim_x_none; assumption
            | events_with is_block_query; cbn [In]; tauto ]).
  all: intros _; split; [|reflexivity].
  all: match goal with
       | |- exists _, ?t = _ =>
           let p := without_last 2%nat t in
           exists p; reflexivity
       end.
Qed.

(** X5.  Status 255 and a line on stderr go together: a run ends with
    status 255 exactly when it wrote one line to stderr, no run
    writes more than one, and after that line the only thing a run
    can still do is call [cuCtxDestroy]. *)
Theorem stderr_iff_status_255 v drv :
  (status v drv = Exited 255
   <-> count is_stderr (events v drv) = 1%nat)
  /\ (status v drv <> Exited 255
      -> count is_stderr (events v drv) = 0%nat)
  /\ (forall l1 m l2 x,
        events v drv = l1 ++ EvStderr m :: l2 -> In x l2 ->
        is_ctx_destroy x = true).
Proof.
  both_variants v drv.
  all: split; [|split].
  all: try (intros l1 m l2 x Heq Hx;
            apply negb_false_iff;
            refine (@closed_by_sound is_stderr
                      (fun e => negb (is_ctx_destroy e)) _ _
                      l1 (EvStderr m) l2 x Heq eq_refl Hx);
            cbn;
            rewrite ?closed_by_skip
              by (apply forallb_check_events;
                  [by_check_event|apply loop_events_check]);
            cbn;
            rewrite ?closed_by_skip
              by (apply forallb_check_events;
                  [by_check_event|apply loop_events_check]);
            reflexivity).
  all: count_of_kind.
  all: try (split; intros H; (reflexivity || discriminate H)).
  all: try (intros H; (reflexivity || (exfalso; apply H; reflexivity))).
Qed.

(* ================================================================= *)
(** ** The context, the buffers and the handles *)

(** X6.  No run calls [cuCtxDestroy] more than once, and when a run
    calls it, the call is the last event of the run.  A run that ends
    with status 0 has created the context once, successfully, and has
    destroyed it once. *)
Theorem context_destroyed_last v drv :
  (count is_ctx_destroy (events v drv) <= 1)%nat
  /\ (forall r,
        In (EvCall cuCtxDestroy r) (events v drv) ->
        exists pre, events v drv = pre ++ [EvCall cuCtxDestroy r])
  /\ (status v drv = Exited 0 ->
      count (succeeded is_context_create) (events v drv) = 1%nat
      /\ count is_ctx_destroy (events v drv) = 1%nat).
Proof.
  both_variants v drv.
  all: split; [count_of_kind; lia|]; split.
  all: try (intros H; (discriminate H
                       || (count_of_kind; split; reflexivity))).
  all: intros r; events_with is_ctx_destroy.
  all: intros Hin; member_cases Hin.
  all: match goal with
       | |- exists _, ?t = _ =>
           let p := all_but_last t in
           exists p; same_trace
       end.
Qed.

(** X7.  [__checkCudaErrors] leaves through [exit(-1)] without
    cleaning up: in a run in which a call inside [checkCudaErrors]
    fails, [cuCtxDestroy] is never called; and unless the failing call
    is one of the device queries, the context had been created
    successfully by then. *)
Theorem checked_failure_skips_cuCtxDestroy v drv c r :
  In (EvCall c r) (events v drv) ->
  wrapped c = true -> r <> CUDA_SUCCESS ->
  count is_ctx_destroy (events v drv) = 0%nat
  /\ (count (succeeded is_context_create) (events v drv) = 0%nat ->
      c = cuDeviceGetCount \/ c = cuDeviceGet 0
      \/ c = cuDeviceTotalMem \/ exists a, c = cuDeviceGetAttribute a).
Proof.
  unfold CUDA_SUCCESS. both_variants v drv; intros Hin Hw Hr.
  (* paths on which a wrapped call has failed *)
  all: try (split; [count_of_kind; reflexivity|];
            count_of_kind; intros H; try discriminate H;
            member_cases Hin; try discriminate Hw;
            try (exfalso; apply Hr; reflexivity);
            eauto 6; fail).
  (* the other paths have no such call *)
  all: exfalso; apply (@in_forallb wrapped_ok) in Hin.
  all: try (cbn in Hin; unfold CUDA_SUCCESS in Hin; rewrite Hw in Hin;
            destruct (Z.eqb_spec r 0); [contradiction|discriminate]).
  all: through_loops.
  all: rewrite ?(@forallb_check_events wrapped_ok (loop_events _ _ _ _ _))
         by by_check_event.
  all: reflexivity.
Qed.

(** Witness of X7: the third allocation fails, the context stays. *)
Lemma checked_failure_witness :
  count is_ctx_destroy (events driver_api alloc_failure_driver) = 0%nat.
Proof.
  refine (proj1 (@checked_failure_skips_cuCtxDestroy driver_api
                   alloc_failure_driver (cuMemAlloc buf_c 40) 2 _ _ _)).
  - vm_compute. tauto.
  - reflexivity.
  - unfold CUDA_SUCCESS. lia.
Defined.

(** X8.  Each of the three buffers is used only between its
    allocation and its release: whenever a run hands the pointer to a
    copy, to the launch or to the release, or (in
    [unified_memory.cpp]) reads or writes through it, the allocation
    of that buffer has succeeded before and the buffer has not been
    released before.  No buffer is allocated or released twice, and a
    run that ends with status 0 has allocated and released each
    once. *)
Theorem buffer_used_while_allocated v drv b :
  (forall l1 e l2,
      events v drv = l1 ++ e :: l2 -> touches v b e = true ->
      (exists x, In x l1 /\ succeeded (is_alloc b) x = true)
      /\ forall x, In x l1 -> is_free b x = false)
  /\ (count (is_call_of (is_alloc b)) (events v drv) <= 1)%nat
  /\ (count (is_free b) (events v drv) <= 1)%nat
  /\ (status v drv = Exited 0 ->
      count (succeeded (is_alloc b)) (events v drv) = 1%nat
      /\ count (is_free b) (events v drv) = 1%nat).
Proof.
  assert (H : guarded (succeeded (is_alloc b)) (touches v b) false
                (events v drv) = true
              /\ closed_by (is_free b) (touches v b) (events v drv) = true
              /\ (count (is_call_of (is_alloc b)) (events v drv) <= 1)%nat
              /\ (count (is_free b) (events v drv) <= 1)%nat
              /\ (status v drv = Exited 0 ->
                  count (succeeded (is_alloc b)) (events v drv) = 1%nat
                  /\ count (is_free b) (events v drv) = 1%nat)).
  { both_variants v drv; destruct b.
    all: split; [decide_guarded|]; split; [decide_closed|].
    all: split; [count_of_kind; lia|]; split; [count_of_kind; lia|].
    all: intros H; (discriminate H || (count_of_kind; split; reflexivity)). }
  destruct H as (Hg & Hc & H1 & H2 & H3).
  split; [|tauto].
  intros l1 e l2 Heq He. split.
  - exact (@guarded_before _ _ _ Hg l1 e l2 Heq He).
  - intros x Hx. exact (@closed_by_before _ _ _ Hc l1 e l2 x Heq He Hx).
Qed.

(** X9.  [driver_api.cpp] reads the output array only after a
    successful copy from the device, starts that copy only after a
    successful launch, and launches only after both addends have been
    copied to the device successfully.  It never calls
    [cuStreamSynchronize]. *)
Theorem driver_api_reads_after_download drv :
  (forall l1 e l2,
      events driver_api drv = l1 ++ e :: l2 ->
      (is_output_read e = true ->
       exists x, In x l1 /\ succeeded is_download x = true)
      /\ (is_call_of is_download e = true ->
          exists x, In x l1 /\ succeeded is_launch_call x = true)
      /\ (is_launch e = true ->
          (exists x, In x l1 /\ succeeded (is_upload buf_a) x = true)
          /\ exists x, In x l1 /\ succeeded (is_upload buf_b) x = true))
  /\ count is_sync (events driver_api drv) = 0%nat.
Proof.
  assert (H : guarded (succeeded is_download) is_output_read false
                (events driver_api drv) = true
              /\ guarded (succeeded is_launch_call) (is_call_of is_download)
                   false (events driver_api drv) = true
              /\ guarded (succeeded (is_upload buf_a)) is_launch false
                   (events driver_api drv) = true
              /\ guarded (succeeded (is_upload buf_b)) is_launch false
                   (events driver_api drv) = true
              /\ count is_sync (events driver_api drv) = 0%nat).
  { unfold events, program.
    run_paths (DriverApi.main drv) drv.
    all: repeat (split; [decide_guarded|]).
    all: count_of_kind; reflexivity. }
  destruct H as (H1 & H2 & H3 & H4 & H5).
  split; [|exact H5].
  intros l1 e l2 Heq.
  split; [|split]; intros He; [| |split].
  - exact (@guarded_before _ _ _ H1 l1 e l2 Heq He).
  - exact (@guarded_before _ _ _ H2 l1 e l2 Heq He).
  - exact (@guarded_before _ _ _ H3 l1 e l2 Heq He).
  - exact (@guarded_before _ _ _ H4 l1 e l2 Heq He).
Qed.

(** X10.  The handles are obtained before they are used, in both
    programs: a call that takes the device comes after a successful
    [cuDeviceGet], [cuModuleLoad] after a successful [cuCtxCreate],
    [cuModuleGetFunction] after a successful [cuModuleLoad], and an
    allocation or the launch after a successful
    [cuModuleGetFunction]. *)
Theorem handles_obtained_before_use v drv l1 e l2 :
  events v drv = l1 ++ e :: l2 ->
  (takes_device e = true ->
   exists x, In x l1 /\ succeeded is_device_get x = true)
  /\ (is_call_of is_module_load e = true ->
      exists x, In x l1 /\ succeeded is_context_create x = true)
  /\ (is_call_of is_get_function e = true ->
      exists x, In x l1 /\ succeeded is_module_load x = true)
  /\ (allocation e <> None \/ is_launch e = true ->
      exists x, In x l1 /\ succeeded is_get_function x = true).
Proof.
  assert (H : guarded (succeeded is_device_get) takes_device false
                (events v drv) = true
              /\ guarded (succeeded is_context_create)
                   (is_call_of is_module_load) false (events v drv) = true
              /\ guarded (succeeded is_module_load)
                   (is_call_of is_get_function) false (events v drv) = true
              /\ guarded (succeeded is_get_function)
                   (fun e => match allocation e with
                             | Some _ => true
                             | None => is_launch e
                             end) false (events v drv) = true).
  { both_variants v drv.
    all: repeat (split; [decide_guarded|]).
    all: decide_guarded. }
  destruct H as (H1 & H2 & H3 & H4).
  intros Heq. split; [|split; [|split]]; intros He.
  - exact (@guarded_before _ _ _ H1 l1 e l2 Heq He).
  - exact (@guarded_before _ _ _ H2 l1 e l2 Heq He).
  - exact (@guarded_before _ _ _ H3 l1 e l2 Heq He).
  - refine (@guarded_before _ _ _ H4 l1 e l2 Heq _).
    destruct (allocation e); [reflexivity|].
    destruct He as [He|He]; [contradiction|exact He].
Qed.

(** Witness of X10: the launch of a complete run. *)
Lemma handles_witness :
  exists x,
    In x (firstn 42 (events driver_api working_driver))
    /\ succeeded is_get_function x = true.
Proof.
  refine (proj2 (proj2 (proj2
            (@handles_obtained_before_use driver_api working_driver
               (firstn 42 (events driver_api working_driver))
               (EvCall (cuLaunchKernel (launch_config 1 1024 10)) 0)
               (skipn 43 (events driver_api working_driver)) _))) _).
  - vm_compute. reflexivity.
  - right. reflexivity.
Defined.

(* ================================================================= *)
(** ** The loops for any length *)

(** X11.  The initialisation loop of either program, for any length
    [n] from 0 to 46341 and arrays of at least [n] cells: it runs to
    its end without a fault, writes [a[i] = n - i] and [b[i] = i * i]
    for [i = 0 .. n-1] in this order, leaves [n - i] and [i * i] in
    the cells (no product overflows an [int]) and does not touch the
    output array.  The two programs have the same loop. *)
Theorem initialisation_loop_fills_the_addends n s :
  0 <= n <= max_fill ->
  (Z.to_nat n <= List.length (mem s buf_a))%nat ->
  (Z.to_nat n <= List.length (mem s buf_b))%nat ->
  exists s',
    DriverApi.init_host_arrays n s = (Ret tt, s')
    /\ UnifiedMemory.init_arrays n s = (Ret tt, s')
    /\ log s' = log s ++ fill_events n 0 (Z.to_nat n)
    /\ holds s' buf_a (fun i => n - i) n
    /\ holds s' buf_b (fun i => i * i) n
    /\ mem s' buf_c = mem s buf_c.
Proof.
  intros Hn Ha Hb.
  destruct (@fill_from n (Z.to_nat n) 0 s) as
    (s' & E & L & C & _ & _ & V & _); try lia.
  exists s'. unfold DriverApi.init_host_arrays, UnifiedMemory.init_arrays,
    for_upto.
  repeat split; auto.
  - intros j Hj. apply V. lia.
  - intros j Hj. apply V. lia.
Qed.

(** Witness of X11: three cells. *)
Lemma initialisation_loop_witness :
  exists s',
    UnifiedMemory.init_arrays 3
      {| mem_a := fresh 3; mem_b := fresh 3; mem_c := fresh 3; log := [] |}
    = (Ret tt, s')
    /\ log s' = fill_events 3 0 3.
Proof.
  destruct (@initialisation_loop_fills_the_addends 3
              {| mem_a := fresh 3; mem_b := fresh 3; mem_c := fresh 3;
                 log := [] |})
    as (s' & _ & E & L & _).
  - unfold max_fill. lia.
  - vm_compute. lia.
  - vm_compute. lia.
  - exists s'. split; [exact E|exact L].
Defined.

(** X12.  The two verification loops of [unified_memory.cpp], for any
    length and any content of the arrays: the second loop reads the
    same cells and prints the same error lines as the first, and it
    leaves the flag [correct] as the first loop left it.  After the
    loops the flag is set exactly when it was set before and every
    output cell equals the sum of the addends computed in [int]. *)
Theorem second_loop_repeats_the_first a b c n s correct :
  holds s buf_a a n -> holds s buf_b b n -> holds s buf_c c n ->
  exists flag s1 s2,
    UnifiedMemory.check_results n correct s = (Ret flag, s1)
    /\ UnifiedMemory.check_results n flag s1 = (Ret flag, s2)
    /\ log s1 = log s ++ loop_events a b c 0 (Z.to_nat n)
    /\ log s2 = log s1 ++ loop_events a b c 0 (Z.to_nat n)
    /\ (flag = true
        <-> correct = true
            /\ forall i, 0 <= i < n -> c i = Int.add (a i) (b i)).
Proof.
  intros Ha Hb Hc.
  set (l := loop_events a b c 0 (Z.to_nat n)).
  set (m := all_match a b c 0 (Z.to_nat n)).
  exists (correct && m), (append_log l s), (append_log l (append_log l s)).
  split; [exact (@um_check_results_spec a b c n s Ha Hb Hc correct)|].
  split.
  - rewrite (@um_check_results_spec a b c n (append_log l s)
               (holds_append_log l Ha) (holds_append_log l Hb)
               (holds_append_log l Hc) (correct && m)).
    fold m l. now destruct correct, m.
  - split; [reflexivity|]. split; [reflexivity|].
    unfold m. rewrite andb_true_iff, all_match_spec.
    split; intros [H1 H2]; (split; [exact H1|]); intros i Hi.
    + apply Z.eqb_eq. apply (H2 i). lia.
    + unfold matches, expected. apply Z.eqb_eq. apply H2. lia.
Qed.

(** Witness of X12: one cell, with a wrong output. *)
Lemma second_loop_witness :
  exists flag s1 s2,
    UnifiedMemory.check_results 1 true
      {| mem_a := [Some 1]; mem_b := [Some 2]; mem_c := [Some 0];
         log := [] |} = (Ret flag, s1)
    /\ UnifiedMemory.check_results 1 flag s1 = (Ret flag, s2)
    /\ flag = false.
Proof.
  destruct (@second_loop_repeats_the_first
              (fun _ => 1) (fun _ => 2) (fun _ => 0) 1
              {| mem_a := [Some 1]; mem_b := [Some 2]; mem_c := [Some 0];
                 log := [] |} true)
    as (flag & s1 & s2 & E1 & E2 & _ & _ & Hf).
  - intros j Hj. assert (j = 0) as -> by lia. reflexivity.
  - intros j Hj. assert (j = 0) as -> by lia. reflexivity.
  - intros j Hj. assert (j = 0) as -> by lia. reflexivity.
  - exists flag, s1, s2. split; [exact E1|]. split; [exact E2|].
    destruct flag; [|reflexivity].
    destruct (proj1 Hf eq_refl) as [_ H].
    specialize (H 0 ltac:(lia)). vm_compute in H. discriminate H.
Defined.

(* ================================================================= *)
(** ** What a complete run prints *)

(** X13.  [driver_api.cpp] checks the output once and has no verdict
    of its own: it never prints the line "Result incorrect"; a run
    that ends with status 0 contains one verification loop, followed
    by the line "All checks complete" whether or not the loop found
    mismatches, and it prints the error line of a position once if
    the output differs there and not at all otherwise. *)
Theorem driver_api_checks_once drv :
  ~ In (EvStdout MsgResultIncorrect) (events driver_api drv)
  /\ (status driver_api drv = Exited 0 ->
      (exists pre post,
          events driver_api drv
          = pre ++ one_pass drv ++ EvStdout MsgAllChecksComplete :: post
          /\ count is_check_event pre = 0%nat
          /\ count is_check_event post = 0%nat)
      /\ (forall i, 0 <= i < N ->
            count (is_error_line i) (events driver_api drv)
            = if kernelOutput drv i =? addend_a i + addend_b i
              then 0%nat else 1%nat)
      /\ count is_verdict (events driver_api drv) = 1%nat).
Proof.
  unfold status, events, program, one_pass.
  change (Z.to_nat N) with 10%nat.
  run_paths (DriverApi.main drv) drv; split.
  all: try (events_with is_verdict; intros Hin; member_cases Hin; fail).
  all: intros Hst; try discriminate Hst.
  all: split; [|split; [intros i Hi|]].
  all: try (count_through_loops; reflexivity).
  all: try (match goal with
            | |- exists _ _, ?t = _ /\ _ =>
                let p := prefix_of t in
                exists p; eexists; split; [|split]; reflexivity
            end).
  all: count_through_loops.
  all: rewrite <- (expected_addends Hi); unfold matches.
  all: unfold N in Hi.
  all: destruct (Z.leb_spec 0 i); [|lia].
  all: destruct (Z.ltb_spec i (0 + Z.of_nat 10)); [|lia].
  all: destruct (kernelOutput drv i =? expected addend_a addend_b i);
    reflexivity.
Qed.

(** X14.  When [cuDeviceGetName] succeeds, the run ends with status
    0 and every output cell holds the sum of its addends, stdout
    shows the line "Initializing", the lines about the device, the
    two lines around the launch, the line "All checks complete" and
    the line "Finalizing", and nothing else.  (The code of
    [cuDeviceGetName] is not looked at; when the call fails the run
    goes on and prints whatever the array [name] holds.) *)
Theorem complete_run_is_quiet v drv :
  result drv (cuDeviceGetName 100) = CUDA_SUCCESS ->
  status v drv = Exited 0 ->
  (forall i, 0 <= i < N -> kernelOutput drv i = addend_a i + addend_b i) ->
  stdout_messages (events v drv)
  = MsgInitializing
      :: banner v drv
      ++ [MsgRunning; MsgKernelComplete; MsgAllChecksComplete;
          MsgFinalizing].
Proof.
  unfold CUDA_SUCCESS.
  both_variants v drv; intros Hname Hst Hall; try discriminate Hst.
  all: pose proof (all_match_addends _ Hall) as Hm.
  all: try congruence.
  all: rewrite Hname; change (0 =? 0) with true; cbv iota.
  all: cbn [stdout_messages andb].
  all: rewrite stdout_messages_app, (loop_events_quiet _ _ _ _ _ Hm).
  all: rewrite ?stdout_messages_app, ?(loop_events_quiet _ _ _ _ _ Hm).
  all: reflexivity.
Qed.

(** Witness of X14: the working driver. *)
Lemma complete_run_witness :
  stdout_messages (events unified_memory working_driver)
  = [MsgInitializing; MsgUsingDevice "GPU"; MsgComputeCapability 7 5;
     MsgTotalMem 8589934592; Msg64bit true; MsgUvmSupported; MsgRunning;
     MsgKernelComplete; MsgAllChecksComplete; MsgFinalizing].
Proof.
  apply (@complete_run_is_quiet unified_memory working_driver).
  - reflexivity.
  - reflexivity.
  - intros i Hi. reflexivity.
Defined.

(* ================================================================= *)
(** ** The launch and the two programs side by side *)

(** X15.  Every launch, in both programs, asks for no dynamic shared
    memory and goes to the default stream, with the block width the
    device reported (converted to [unsigned]); the stream
    [unified_memory.cpp] synchronizes is the stream of its launch. *)
Theorem launch_on_default_stream v drv cfg r :
  In (EvCall (cuLaunchKernel cfg) r) (events v drv) ->
  sharedMemBytes cfg = 0 /\ hStream cfg = 0
  /\ blockDimX cfg
     = Int.to_unsigned (attrValue drv CU_DEVICE_ATTRIBUTE_MAX_BLOCK_DIM_X)
  /\ forall stream rs,
       In (EvCall (cuStreamSynchronize stream) rs) (events v drv) ->
       stream = hStream cfg.
Proof.
  both_variants v drv.
  all: events_with is_launch.
  all: intros Hin; member_cases Hin.
  all: repeat (split; [reflexivity|]).
  all: intros stream rs; events_with is_sync.
  all: intros Hs; member_cases Hs; reflexivity.
Qed.

(** Witness of X15: the launch of a complete run. *)
Lemma launch_witness :
  sharedMemBytes (launch_config 1 1024 10) = 0
  /\ hStream (launch_config 1 1024 10) = 0.
Proof.
  destruct (@launch_on_default_stream unified_memory working_driver
              (launch_config 1 1024 10) 0) as (H1 & H2 & _).
  - vm_compute. tauto.
  - split; [exact H1|exact H2].
Defined.

(** The error lines of a complete run are those of its verification
    loops: one loop in [driver_api.cpp], two in
    [unified_memory.cpp]. *)
Lemma error_lines_of_a_run v drv :
  status v drv = Exited 0 ->
  filter is_mismatch_line (events v drv)
  = match v with
    | driver_api => filter is_mismatch_line (one_pass drv)
    | unified_memory =>
        filter is_mismatch_line (one_pass drv)
          ++ filter is_mismatch_line (one_pass drv)
    end.
Proof.
  unfold one_pass. change (Z.to_nat N) with 10%nat.
  both_variants v drv; intros Hst; try discriminate Hst.
  all: cbn [filter is_mismatch_line]; rewrite !filter_app.
  all: cbn [filter is_mismatch_line]; rewrite ?app_nil_r; reflexivity.
Qed.

Unset Implicit Arguments.

(** X16.  Against the same driver, when both programs run to status
    0, [unified_memory.cpp] prints the error lines of
    [driver_api.cpp], in the same order, and then prints them all a
    second time. *)
Theorem error_lines_of_the_two_programs drv :
  status driver_api drv = Exited 0 ->
  status unified_memory drv = Exited 0 ->
  filter is_mismatch_line (events unified_memory drv)
  = filter is_mismatch_line (events driver_api drv)
      ++ filter is_mismatch_line (events driver_api drv).
Proof.
  intros H1 H2.
  pose proof (@error_lines_of_a_run driver_api drv H1) as Hd.
  pose proof (@error_lines_of_a_run unified_memory drv H2) as Hu.
  cbv beta iota in Hd, Hu.
  exact (eq_trans Hu (f_equal2 (@app event) (eq_sym Hd) (eq_sym Hd))).
Qed.

Set Implicit Arguments.

(** Witness of X16: an output buffer of zeros. *)
Lemma error_lines_witness :
  filter is_mismatch_line (events unified_memory zero_output_driver)
  = filter is_mismatch_line (events driver_api zero_output_driver)
      ++ filter is_mismatch_line (events driver_api zero_output_driver).
Proof.
  apply (@error_lines_of_the_two_programs zero_output_driver);
    vm_compute; reflexivity.
Defined.

(** X17.  Where the initialisation loop sits.  Every run of
    [driver_api.cpp] begins with the twenty stores of the loop,
    whatever the driver does afterwards; then comes the line
    "Initializing" and the call of [cuInit].  A run of
    [unified_memory.cpp] begins with that line and that call, and if
    it stores at all, the twenty stores follow the third successful
    allocation directly. *)
Theorem position_of_the_initialisation_loop drv :
  (exists r rest,
      events driver_api drv
      = fill_events N 0 (Z.to_nat N)
          ++ EvStdout MsgInitializing :: EvCall (cuInit 0) r :: rest)
  /\ (exists r rest,
         events unified_memory drv
         = EvStdout MsgInitializing :: EvCall (cuInit 0) r :: rest)
  /\ (count is_store (events unified_memory drv) <> 0%nat ->
      exists pre post,
        events unified_memory drv
        = pre ++ EvCall (cuMemAllocHost buf_c (Int.sizeof_int * N))
                   CUDA_SUCCESS
              :: fill_events N 0 (Z.to_nat N) ++ post
        /\ count is_store pre = 0%nat /\ count is_store post = 0%nat).
Proof.
  let f := eval cbv in (fill_events N 0 (Z.to_nat N)) in
  change (fill_events N 0 (Z.to_nat N)) with f.
  change (Int.sizeof_int * N) with 40. unfold CUDA_SUCCESS.
  split.
  - unfold events, program.
    run_paths (DriverApi.main drv) drv.
    all: match goal with
         | |- exists _ _, ?t = _ =>
             let q := drop_events 20%nat t in
             lazymatch q with
             | _ :: EvCall _ ?r :: ?rest => exists r, rest; reflexivity
             end
         end.
  - unfold events, program.
    run_paths (UnifiedMemory.main drv) drv.
    all: split;
      [ match goal with
        | |- exists _ _, ?t = _ =>
            lazymatch t with
            | _ :: EvCall _ ?r :: ?rest => exists r, rest; reflexivity
            end
        end |].
    all: try (count_of_kind; intros H; exfalso; apply H; reflexivity).
    all: intros _.
    all: match goal with
         | |- exists _ _, ?t = _ /\ _ =>
             let p := to_third_allocation t in
             let q := from_third_allocation t in
             let q := drop_events 20%nat q in
             exists p, q
         end.
    all: split; [reflexivity|]; split; count_of_kind; reflexivity.
Qed.
